(** * HttpCallImpl: the service-control HTTP call with retries

    A shallow embedding of [src/envoy/http/service_control/http_call.cc].

    The C++ object [HttpCallImpl] is a record of its mutable members.  Its
    member functions are written in a small state-and-failure monad over a
    [World]: the object together with the trace of every call that crosses
    its boundary (calls into the object by its owner and by the transport,
    and calls the object makes on the token function, the tracer, the
    transport, the completion callback and the dispatcher).  Failure stands
    for undefined behaviour (dereferencing a null [request_span_]).

    Unsigned C++ integers are [Z] with the wrap-around written out. *)

From Stdlib Require Import ZArith List String Ascii Bool Lia Arith DecimalString.
Import ListNotations.
Local Open Scope string_scope.
Local Open Scope list_scope.
Local Open Scope Z_scope.

(** ** Integers and text *)

(** [uint32_t] arithmetic. *)
Definition wrap32 (z : Z) : Z := z mod 2 ^ 32.

(** [std::to_string] and [absl::StrCat] on an unsigned integer. *)
Definition to_string (z : Z) : string :=
  NilZero.string_of_uint (N.to_uint (Z.to_N z)).

(** [std::string::empty]. *)
Definition empty (s : string) : bool :=
  match s with EmptyString => true | String _ _ => false end.

(** ** Data of the collaborators *)

(** [google::protobuf::util::error::Code]. *)
Inductive Code : Type :=
| OK | CANCELLED | UNKNOWN | INVALID_ARGUMENT | DEADLINE_EXCEEDED | NOT_FOUND
| ALREADY_EXISTS | PERMISSION_DENIED | UNAUTHENTICATED | RESOURCE_EXHAUSTED
| FAILED_PRECONDITION | ABORTED | OUT_OF_RANGE | UNIMPLEMENTED | INTERNAL
| UNAVAILABLE | DATA_LOSS.

(** [google::protobuf::util::Status]. *)
Record Status : Type := mkStatus { code : Code; message : string }.

(** [Status::OK]. *)
Definition Status_OK : Status := mkStatus OK "".

(** [Http::Code::OK] through [enumToInt]. *)
Definition Http_Code_OK : Z := 200.

(** [Http::AsyncClient::FailureReason]; the source switches on [Reset] and
    has a [default] branch for anything else. *)
Inductive FailureReason : Type := Reset | OtherReason.

(** The keys of [Tracing::Tags::get()] the source uses. *)
Inductive TagKey : Type :=
| HttpStatusCode | Error | Component | UpstreamCluster | HttpUrl | HttpMethod.

(** Tag values: a string of the source, or one of the constants
    [Tracing::Tags::get().Proxy] and [Tracing::Tags::get().Canceled]. *)
Inductive TagValue : Type :=
| TagStr (s : string) | Proxy | Canceled.

(** The request message built by [prepareHeaders]; the headers are kept in
    the order the source inserts them. *)
Inductive HeaderName : Type :=
| Path | Host | Method | ContentLength | Authorization | ContentType.

Record Message : Type := mkMessage {
  headers : list (HeaderName * string);
  body : string
}.

(** A span is named by the number of spans spawned before it, a request
    handle by the number of requests sent before it. *)
Definition SpanId : Type := nat.
Definition Handle : Type := nat.

(** ** The trace *)

Inductive Event : Type :=
(* calls into the instance *)
| EvCall
| EvCancel
| EvOnSuccess (h : Handle) (status_code : Z) (response_body : option string)
| EvOnFailure (h : Handle) (reason : FailureReason)
(* calls made by the instance *)
| EvTokenFn (token : string)
| EvSpawnChild (sp : SpanId) (name : string)
| EvSetTag (sp : SpanId) (key : TagKey) (value : TagValue)
| EvFinishSpan (sp : SpanId)
| EvSend (h : Handle) (cluster : string) (msg : Message) (timeout_ms : Z)
| EvRequestCancel (h : Handle)
| EvOnDone (st : Status) (body : string)
| EvDeferredDelete.

(** The trace is kept newest event first. *)
Definition Trace : Type := list Event.

Definition is_call (e : Event) : bool :=
  match e with EvCall => true | _ => false end.
Definition is_cancel (e : Event) : bool :=
  match e with EvCancel => true | _ => false end.
Definition is_token (e : Event) : bool :=
  match e with EvTokenFn _ => true | _ => false end.
Definition is_spawn (e : Event) : bool :=
  match e with EvSpawnChild _ _ => true | _ => false end.
Definition is_send (e : Event) : bool :=
  match e with EvSend _ _ _ _ => true | _ => false end.
Definition is_request_cancel (e : Event) : bool :=
  match e with EvRequestCancel _ => true | _ => false end.
Definition is_done (e : Event) : bool :=
  match e with EvOnDone _ _ => true | _ => false end.
Definition is_deferred (e : Event) : bool :=
  match e with EvDeferredDelete => true | _ => false end.

Fixpoint count (p : Event -> bool) (t : Trace) : nat :=
  match t with
  | [] => O
  | e :: t' => if p e then S (count p t') else count p t'
  end.

(** Requests the transport still holds: sent, and neither answered by a
    callback nor cancelled. *)
Fixpoint outstanding (t : Trace) : list Handle :=
  match t with
  | [] => []
  | EvSend h _ _ _ :: t' => h :: outstanding t'
  | EvOnSuccess h _ _ :: t' => remove Nat.eq_dec h (outstanding t')
  | EvOnFailure h _ :: t' => remove Nat.eq_dec h (outstanding t')
  | EvRequestCancel h :: t' => remove Nat.eq_dec h (outstanding t')
  | _ :: t' => outstanding t'
  end.

(** Spans spawned and not yet finished. *)
Fixpoint open_spans (t : Trace) : list SpanId :=
  match t with
  | [] => []
  | EvSpawnChild sp _ :: t' => sp :: open_spans t'
  | EvFinishSpan sp :: t' => remove Nat.eq_dec sp (open_spans t')
  | _ :: t' => open_spans t'
  end.

(** The completion callback has fired, or the instance was cancelled. *)
Definition terminated (t : Trace) : bool :=
  negb (count is_done t + count is_cancel t =? 0)%nat.

(** The instance has been handed to the dispatcher for deletion. *)
Definition disposed (t : Trace) : bool :=
  negb (count is_deferred t =? 0)%nat.

(** No request is sent once [terminated]. *)
Fixpoint quiet_after_termination (t : Trace) : bool :=
  match t with
  | [] => true
  | e :: t' =>
      (if is_send e then negb (terminated t') else true)
      && quiet_after_termination t'
  end.

(** Every request is sent, and every span spawned, while the transport holds
    no other request of this instance and no earlier span is open. *)
Fixpoint sequential (t : Trace) : bool :=
  match t with
  | [] => true
  | e :: t' =>
      (match e with
       | EvSend _ _ _ _ => match outstanding t' with [] => true | _ => false end
       | EvSpawnChild _ _ => match open_spans t' with [] => true | _ => false end
       | _ => true
       end) && sequential t'
  end.

(** The statuses delivered through [on_done_], newest first. *)
Fixpoint done_calls (t : Trace) : list (Status * string) :=
  match t with
  | [] => []
  | EvOnDone st b :: t' => (st, b) :: done_calls t'
  | _ :: t' => done_calls t'
  end.

(** Events that are neither a token fetch, a spawn, a send nor a report. *)
Definition silent (e : Event) : bool :=
  negb (is_token e || is_spawn e || is_send e || is_done e).

(** The names of the spans spawned, newest first. *)
Fixpoint span_names (t : Trace) : list string :=
  match t with
  | [] => []
  | EvSpawnChild _ n :: t' => n :: span_names t'
  | _ :: t' => span_names t'
  end.

(** ** The instance and its surroundings *)

(** What the constructor fixes for the lifetime of the call, and the token
    function: [token_fn_ k] is what its invocation number [k] returns,
    counting from 0 (the token may change between attempts). *)
Record Env : Type := mkEnv {
  cluster : string;               (* http_uri_.cluster() *)
  uri_ : string;
  host_ : string;
  path_ : string;
  str_body_ : string;
  timeout_ms_ : Z;
  trace_operation_name_ : string;
  token_fn_ : nat -> string
}.

(** The mutable members of [HttpCallImpl]; a null pointer is [None]. *)
Record HttpCallImpl : Type := mkImpl {
  retries_ : Z;                   (* uint32_t *)
  request_count_ : Z;             (* uint32_t *)
  request_ : option Handle;
  request_span_ : option SpanId
}.

Definition set_retries_ (v : Z) (o : HttpCallImpl) : HttpCallImpl :=
  mkImpl v (request_count_ o) (request_ o) (request_span_ o).
Definition set_request_count_ (v : Z) (o : HttpCallImpl) : HttpCallImpl :=
  mkImpl (retries_ o) v (request_ o) (request_span_ o).
Definition set_request_ (v : option Handle) (o : HttpCallImpl) : HttpCallImpl :=
  mkImpl (retries_ o) (request_count_ o) v (request_span_ o).
Definition set_request_span_ (v : option SpanId) (o : HttpCallImpl)
  : HttpCallImpl :=
  mkImpl (retries_ o) (request_count_ o) (request_ o) v.

Record World : Type := mkWorld { self : HttpCallImpl; trace : Trace }.

(** ** The monad of member functions *)

Definition M (A : Type) : Type := World -> option (A * World).

Definition ret {A : Type} (a : A) : M A := fun w => Some (a, w).

Definition bind {A B : Type} (m : M A) (k : A -> M B) : M B :=
  fun w => match m w with
           | Some (a, w') => k a w'
           | None => None
           end.

Declare Scope member_scope.
Delimit Scope member_scope with member.
Notation "x <- m ;; k" := (bind m (fun x => k))
  (at level 61, m at next level, right associativity) : member_scope.
Notation "m ;; k" := (bind m (fun _ => k))
  (at level 61, right associativity) : member_scope.
Local Open Scope member_scope.

(** Undefined behaviour. *)
Definition undefined {A : Type} : M A := fun _ => None.

Definition this : M HttpCallImpl := fun w => Some (self w, w).

Definition assign (f : HttpCallImpl -> HttpCallImpl) : M unit :=
  fun w => Some (tt, mkWorld (f (self w)) (trace w)).

Definition emit (e : Event) : M unit :=
  fun w => Some (tt, mkWorld (self w) (e :: trace w)).

Definition observed : M Trace := fun w => Some (trace w, w).

(** [constexpr absl::string_view KApplicationProto]. *)
Definition KApplicationProto : string := "application/x-protobuf".

Section Members.

Variable env : Env.

(** *** Calls on the collaborators *)

(** [token_fn_()]. *)
Definition token_fn : M string :=
  t <- observed ;;
  let token := token_fn_ env (count is_token t) in
  emit (EvTokenFn token) ;;
  ret token.

(** [parent_span_.spawnChild(config, name, time)]; the tracing configuration
    and the time stamp play no part in what follows and are left out. *)
Definition spawnChild (name : string) : M SpanId :=
  t <- observed ;;
  let sp := count is_spawn t in
  emit (EvSpawnChild sp name) ;;
  ret sp.

(** [request_span_->setTag]; undefined on a null span. *)
Definition setTag (key : TagKey) (value : TagValue) : M unit :=
  o <- this ;;
  match request_span_ o with
  | Some sp => emit (EvSetTag sp key value)
  | None => undefined
  end.

(** [request_span_->finishSpan]. *)
Definition finishSpan : M unit :=
  o <- this ;;
  match request_span_ o with
  | Some sp => emit (EvFinishSpan sp)
  | None => undefined
  end.

(** [cm_.httpAsyncClientForCluster(c).send(message, *this, timeout)]: the
    transport takes the request and answers later, by one callback. *)
Definition send (c : string) (msg : Message) (timeout : Z) : M Handle :=
  t <- observed ;;
  let h := count is_send t in
  emit (EvSend h c msg timeout) ;;
  ret h.

Definition on_done_ (st : Status) (b : string) : M unit :=
  emit (EvOnDone st b).

(** *** Member functions *)

Definition reset : M unit := assign (set_request_ None).

Definition deferredDelete : M unit := emit EvDeferredDelete.

Definition prepareHeaders (token : string) : Message :=
  let token_value := ("Bearer " ++ token)%string in
  mkMessage
    [ (Path, path_ env);
      (Host, host_ env);
      (Method, "POST");
      (ContentLength, to_string (Z.of_nat (String.length (str_body_ env))));
      (Authorization, token_value);
      (ContentType, KApplicationProto) ]
    (str_body_ env).

Definition makeOneCall : M unit :=
  assign (fun o => set_request_count_ (wrap32 (request_count_ o + 1)) o) ;;
  token <- token_fn ;;
  if empty token then
    on_done_ (mkStatus INTERNAL "Missing access token for service control call")
             ""
  else
    o <- this ;;
    let span_name :=
      if request_count_ o =? 1 then trace_operation_name_ env
      else (trace_operation_name_ env ++ " - Retry "
              ++ to_string (wrap32 (request_count_ o - 1)))%string in
    sp <- spawnChild span_name ;;
    assign (set_request_span_ (Some sp)) ;;
    setTag Component Proxy ;;
    setTag UpstreamCluster (TagStr (cluster env)) ;;
    setTag HttpUrl (TagStr (uri_ env)) ;;
    setTag HttpMethod (TagStr "POST") ;;
    let message := prepareHeaders token in
    h <- send (cluster env) message (timeout_ms_ env) ;;
    assign (set_request_ (Some h)).

Definition attemptRetry (status_code : Z) : M bool :=
  if (400 <=? status_code) && (status_code <? 500) then ret false
  else
    o <- this ;;
    if retries_ o <=? 0 then ret false
    else
      assign (set_retries_ (wrap32 (retries_ o - 1))) ;;
      reset ;;
      makeOneCall ;;
      ret true.

Definition call : M unit := makeOneCall.

(** The inner computations return [true] where the source returns early. *)
Definition onSuccess (status_code : Z) (response_body : option string)
  : M unit :=
  setTag HttpStatusCode (TagStr (to_string status_code)) ;;
  finishSpan ;;
  let b := match response_body with Some s => s | None => "" end in
  returned <-
    (if status_code =? Http_Code_OK then
       on_done_ Status_OK b ;; ret false
     else
       retried <- attemptRetry status_code ;;
       if retried then ret true
       else
         on_done_ (mkStatus INTERNAL "Failed to call service control") b ;;
         ret false) ;;
  if returned then ret tt
  else reset ;; deferredDelete.

Definition onFailure (reason : FailureReason) : M unit :=
  match reason with
  | Reset => setTag Error (TagStr "the stream has been reset")
  | _ => setTag Error (TagStr "unknown network error")
  end ;;
  finishSpan ;;
  retried <- attemptRetry 0 ;;
  if retried then ret tt
  else
    on_done_ (mkStatus INTERNAL "Failed to call service control") "" ;;
    reset ;;
    deferredDelete.

Definition cancel : M unit :=
  o <- this ;;
  match request_span_ o with
  | Some _ => setTag Error Canceled ;; finishSpan
  | None => ret tt
  end ;;
  o <- this ;;
  match request_ o with
  | Some h => emit (EvRequestCancel h) ;; reset
  | None => ret tt
  end ;;
  deferredDelete.

(** ** The life of one call *)

(** What the owner and the transport may do to the instance. *)
Inductive Input : Type :=
| InCall
| InCancel
| InOnSuccess (h : Handle) (status_code : Z) (response_body : option string)
| InOnFailure (h : Handle) (reason : FailureReason).

Definition event_of (i : Input) : Event :=
  match i with
  | InCall => EvCall
  | InCancel => EvCancel
  | InOnSuccess h sc b => EvOnSuccess h sc b
  | InOnFailure h r => EvOnFailure h r
  end.

Definition handler (i : Input) : M unit :=
  match i with
  | InCall => call
  | InCancel => cancel
  | InOnSuccess _ sc b => onSuccess sc b
  | InOnFailure _ r => onFailure r
  end.

(** The contract of the surroundings: [call] at most once, on a live
    instance; [cancel] before [on_done_] has fired, on a live instance; the
    transport answers only a request it still holds, with a [uint64_t]
    status. *)
Definition permitted (t : Trace) (i : Input) : bool :=
  match i with
  | InCall => (count is_call t =? 0)%nat && negb (disposed t)
  | InCancel => (count is_done t =? 0)%nat && negb (disposed t)
  | InOnSuccess h sc _ =>
      existsb (Nat.eqb h) (outstanding t) && (0 <=? sc) && (sc <? 2 ^ 64)
  | InOnFailure h _ => existsb (Nat.eqb h) (outstanding t)
  end.

Definition step (w : World) (i : Input) : option World :=
  if permitted (trace w) i then
    match handler i (mkWorld (self w) (event_of i :: trace w)) with
    | Some (_, w') => Some w'
    | None => None
    end
  else None.

Fixpoint run (inputs : list Input) (w : World) : option World :=
  match inputs with
  | [] => Some w
  | i :: rest =>
      match step w i with
      | Some w' => run rest w'
      | None => None
      end
  end.

(** The constructor: [retries_(retries)], [request_count_(0)], null request
    and span. *)
Definition create (retries : Z) : World :=
  mkWorld (mkImpl retries 0 None None) [].

(** ** Closed forms of the member functions *)

Definition missing_token : Status :=
  mkStatus INTERNAL "Missing access token for service control call".

Definition call_failed : Status :=
  mkStatus INTERNAL "Failed to call service control".

(** The name [makeOneCall] gives the span when [request_count_] is [rc]. *)
Definition span_name (rc : Z) : string :=
  if rc =? 1 then trace_operation_name_ env
  else (trace_operation_name_ env ++ " - Retry "
          ++ to_string (wrap32 (rc - 1)))%string.

(** What one run of [makeOneCall] leaves behind. *)
Definition attempt (o : HttpCallImpl) (t : Trace) : World :=
  let rc := wrap32 (request_count_ o + 1) in
  let token := token_fn_ env (count is_token t) in
  if empty token then
    mkWorld (set_request_count_ rc o)
            (EvOnDone missing_token "" :: EvTokenFn token :: t)
  else
    let sp := count is_spawn t in
    let h := count is_send t in
    mkWorld (mkImpl (retries_ o) rc (Some h) (Some sp))
            (EvSend h (cluster env) (prepareHeaders token) (timeout_ms_ env)
             :: EvSetTag sp HttpMethod (TagStr "POST")
             :: EvSetTag sp HttpUrl (TagStr (uri_ env))
             :: EvSetTag sp UpstreamCluster (TagStr (cluster env))
             :: EvSetTag sp Component Proxy
             :: EvSpawnChild sp (span_name rc)
             :: EvTokenFn token :: t).

(** What the end of [onSuccess] and [onFailure] leaves behind when the
    outcome is reported. *)
Definition report (st : Status) (b : string) (o : HttpCallImpl) (t : Trace)
  : World :=
  mkWorld (set_request_ None o) (EvDeferredDelete :: EvOnDone st b :: t).

(** [attemptRetry] decides to retry. *)
Definition retryable (status_code : Z) (o : HttpCallImpl) : bool :=
  negb ((400 <=? status_code) && (status_code <? 500))
  && negb (retries_ o <=? 0).

(** The instance as [attemptRetry] leaves it for [makeOneCall]. *)
Definition spend (o : HttpCallImpl) : HttpCallImpl :=
  set_request_ None (set_retries_ (wrap32 (retries_ o - 1)) o).

(** The text [onFailure] puts on the span. *)
Definition failure_text (reason : FailureReason) : string :=
  match reason with
  | Reset => "the stream has been reset"
  | OtherReason => "unknown network error"
  end.

Definition body_of (response_body : option string) : string :=
  match response_body with Some s => s | None => "" end.

(** What [cancel] adds to the trace. *)
Definition cancel_span (o : HttpCallImpl) : list Event :=
  match request_span_ o with
  | Some sp => [EvFinishSpan sp; EvSetTag sp Error Canceled]
  | None => []
  end.

Definition cancel_request (o : HttpCallImpl) : list Event :=
  match request_ o with
  | Some h => [EvRequestCancel h]
  | None => []
  end.

End Members.


(** ** The lifecycle of a call, as an invariant of the reachable worlds *)

(** The span name as the specification words it, for attempt number [n]
    counted from 1 without any wrap-around. *)
Definition spec_span_name (op : string) (n : nat) : string :=
  if (n =? 1)%nat then op
  else (op ++ " - Retry " ++ to_string (Z.of_nat n - 1))%string.

(** The names of attempts [k], ..., [1]. *)
Fixpoint names_upto (op : string) (k : nat) : list string :=
  match k with
  | O => []
  | S k' => spec_span_name op (S k') :: names_upto op k'
  end.

Definition is_missing_token (st : Status) : bool :=
  String.eqb (message st) (message missing_token).

(** The only statuses [on_done_] is ever given. *)
Definition known_status (st : Status) : Prop :=
  st = Status_OK \/ st = missing_token \/ st = call_failed.

Section Lifecycle.

Variable env : Env.
Variable R : Z.

(** What holds of the counters and of the trace at every moment. *)
Record Steady (o : HttpCallImpl) (t : Trace) : Prop := {
  steady_budget : 0 <= retries_ o <= R;
  steady_count : request_count_ o = wrap32 (Z.of_nat (count is_token t));
  steady_sends : (count is_send t <= count is_token t)%nat;
  steady_spawns : count is_spawn t = count is_send t;
  steady_quiet : quiet_after_termination t = true;
  steady_sequential : sequential t = true;
  steady_names :
    span_names t = names_upto (trace_operation_name_ env) (count is_spawn t);
  steady_statuses : Forall (fun p => known_status (fst p)) (done_calls t)
}.

(** Between the end of one attempt and the decision that follows it (and
    in [call], before the first attempt): nothing is in flight, nothing
    was reported, and [k] is 1 before the budget is spent, 0 after. *)
Record Retrying (k : Z) (o : HttpCallImpl) (t : Trace) : Prop := {
  retrying_steady : Steady o t;
  retrying_budget : Z.of_nat (count is_token t) + retries_ o = R + k;
  retrying_called : count is_call t = 1%nat;
  retrying_cancel : count is_cancel t = 0%nat;
  retrying_done : count is_done t = 0%nat;
  retrying_deferred : count is_deferred t = 0%nat;
  retrying_outstanding : outstanding t = [];
  retrying_open : open_spans t = [];
  retrying_all_sent : count is_send t = count is_token t
}.

(** The four resting states of the instance. *)
Inductive Phase (o : HttpCallImpl) (t : Trace) : Prop :=
| PhaseIdle :
    t = [] -> o = mkImpl R 0 None None -> Phase o t
| PhaseInFlight (h : Handle) (sp : SpanId) :
    request_ o = Some h -> request_span_ o = Some sp ->
    outstanding t = [h] -> open_spans t = [sp] ->
    count is_call t = 1%nat -> count is_cancel t = 0%nat ->
    count is_done t = 0%nat -> count is_deferred t = 0%nat ->
    count is_send t = count is_token t ->
    Phase o t
| PhaseDone (st : Status) (b : string) :
    request_ o = None -> outstanding t = [] -> open_spans t = [] ->
    count is_call t = 1%nat -> count is_cancel t = 0%nat ->
    done_calls t = [(st, b)] -> count is_done t = 1%nat ->
    count is_deferred t = (if is_missing_token st then 0 else 1)%nat ->
    Phase o t
| PhaseCancelled :
    request_ o = None -> outstanding t = [] -> open_spans t = [] ->
    (count is_call t <= 1)%nat -> count is_cancel t = 1%nat ->
    count is_done t = 0%nat -> count is_deferred t = 1%nat ->
    Phase o t.

Record Inv (w : World) : Prop := {
  inv_steady : Steady (self w) (trace w);
  inv_budget :
    Z.of_nat (count is_token (trace w)) + retries_ (self w)
    = R + Z.of_nat (count is_call (trace w));
  inv_phase : Phase (self w) (trace w)
}.

End Lifecycle.

(** The error classes of the specification's taxonomy, read on the status
    code as the rest of this development reads the internal class: an
    authentication-class error is one whose code says that the credential
    is missing or invalid, kept apart from the generic internal failure. *)
Definition internal_class (st : Status) : Prop := code st = INTERNAL.

Definition authentication_class (st : Status) : Prop :=
  code st = UNAUTHENTICATED.

(** An outcome other than a 200 response. *)
Definition non_success (i : Input) : Prop :=
  match i with
  | InOnFailure _ _ => True
  | InOnSuccess _ sc _ => sc <> Http_Code_OK
  | _ => False
  end.

(** The input makes the instance start an attempt: [call], or an outcome
    that [attemptRetry] decides to retry. *)
Definition starts_attempt (o : HttpCallImpl) (i : Input) : Prop :=
  match i with
  | InCall => True
  | InCancel => False
  | InOnSuccess _ sc _ => sc <> Http_Code_OK /\ retryable sc o = true
  | InOnFailure _ _ => retryable 0 o = true
  end.

(** The world a run ends in ([create] again where the run is refused). *)
Definition world_after (env : Env) (R : Z) (inputs : list Input) : World :=
  match run env inputs (create R) with
  | Some w => w
  | None => create R
  end.

(** What a test of the call looks at: the reports, the number of requests
    sent and cancelled, the span names (oldest first) and whether the
    deletion was deferred. *)
Definition observe (w : World)
  : list (Status * string) * nat * nat * list string * bool :=
  (done_calls (trace w), count is_send (trace w),
   count is_request_cancel (trace w), rev (span_names (trace w)),
   disposed (trace w)).

(** A setting for concrete runs: the token function answers from a list and
    gives the empty token past its end. *)
Definition demo_env (tokens : list string) : Env :=
  mkEnv "service-control"
        "https://servicecontrol.example/v1/services/echo:report"
        "servicecontrol.example"
        "/v1/services/echo:report"
        "payload" 5000 "Report"
        (fun k => nth k tokens "").

(** ** The load assignment of the configuration generator

    [CreateLoadAssignment] of the Go package [util].  The message types are
    those of the xDS API; of each, the fields the function sets are kept,
    a pointer is an [option] and a [oneof] an inductive type. *)

Module LoadAssignment.

Inductive PortSpecifier : Type :=
| SocketAddress_PortValue (PortValue : Z)        (* uint32 *)
| SocketAddress_NamedPort (NamedPort : string).

Record SocketAddress : Type := mkSocketAddress {
  SocketAddress_Address : string;
  SocketAddress_PortSpecifier : option PortSpecifier
}.

Inductive AddressKind : Type :=
| Address_SocketAddress (SocketAddress_ : option SocketAddress)
| Address_Pipe (path : string).

Record Address : Type := mkAddress { Address_Address : option AddressKind }.

Record Endpoint : Type := mkEndpoint { Endpoint_Address : option Address }.

Inductive HostIdentifier : Type :=
| LbEndpoint_Endpoint (Endpoint_ : option Endpoint)
| LbEndpoint_EndpointName (name : string).

Record LbEndpoint : Type := mkLbEndpoint {
  LbEndpoint_HostIdentifier : option HostIdentifier
}.

Record LocalityLbEndpoints : Type := mkLocalityLbEndpoints {
  LbEndpoints : list LbEndpoint
}.

Record ClusterLoadAssignment : Type := mkClusterLoadAssignment {
  ClusterName : string;
  Endpoints : list LocalityLbEndpoints
}.

Definition CreateLoadAssignment (hostname : string) (port : Z)
  : ClusterLoadAssignment :=
  mkClusterLoadAssignment hostname
    [ mkLocalityLbEndpoints
        [ mkLbEndpoint
            (Some (LbEndpoint_Endpoint
               (Some (mkEndpoint
                  (Some (mkAddress
                     (Some (Address_SocketAddress
                        (Some (mkSocketAddress hostname
                           (Some (SocketAddress_PortValue port)))))))))))) ] ].

(** The socket address an endpoint resolves to, when it is given by
    address and numeric port. *)
Definition endpoint_socket (e : LbEndpoint) : option (string * Z) :=
  match LbEndpoint_HostIdentifier e with
  | Some (LbEndpoint_Endpoint (Some ep)) =>
      match Endpoint_Address ep with
      | Some (mkAddress (Some (Address_SocketAddress (Some sa)))) =>
          match SocketAddress_PortSpecifier sa with
          | Some (SocketAddress_PortValue v) =>
              Some (SocketAddress_Address sa, v)
          | _ => None
          end
      | _ => None
      end
  | _ => None
  end.

(** The endpoints of an assignment, over all its localities. *)
Definition all_endpoints (cla : ClusterLoadAssignment) : list LbEndpoint :=
  flat_map LbEndpoints (Endpoints cla).

End LoadAssignment.

(** ** Further observations of a trace *)

Definition is_finish (e : Event) : bool :=
  match e with EvFinishSpan _ => true | _ => false end.
Definition is_tag (e : Event) : bool :=
  match e with EvSetTag _ _ _ => true | _ => false end.

(** The requests handed to the transport, newest first: handle, cluster,
    message and timeout. *)
Fixpoint sent (t : Trace) : list (Handle * string * Message * Z) :=
  match t with
  | [] => []
  | EvSend h c m tmo :: t' => (h, c, m, tmo) :: sent t'
  | _ :: t' => sent t'
  end.

(** The value of a header of a message, if the header is there. *)
Fixpoint get_header (name : HeaderName) (hs : list (HeaderName * string))
  : option string :=
  match hs with
  | [] => None
  | (n, v) :: hs' =>
      match name, n with
      | Path, Path | Host, Host | Method, Method
      | ContentLength, ContentLength | Authorization, Authorization
      | ContentType, ContentType => Some v
      | _, _ => get_header name hs'
      end
  end.

(** ** What the transport makes of one attempt *)

Inductive Outcome : Type :=
| Failed (reason : FailureReason)
| Responded (status_code : Z) (response_body : option string).

(** The callback by which the transport reports the outcome of request
    [h]. *)
Definition deliver (h : Handle) (oc : Outcome) : Input :=
  match oc with
  | Failed reason => InOnFailure h reason
  | Responded sc rb => InOnSuccess h sc rb
  end.

(** The outcomes [onSuccess] and [onFailure] pass to [attemptRetry] and
    that [attemptRetry] does not turn away by their status: a failure, or a
    [uint64_t] status that is neither 200 nor in [400, 500). *)
Definition transient (oc : Outcome) : bool :=
  match oc with
  | Failed _ => true
  | Responded sc _ =>
      (0 <=? sc) && (sc <? 2 ^ 64) && negb (sc =? Http_Code_OK)
      && negb ((400 <=? sc) && (sc <? 500))
  end.

(** The body [on_done_] is given for an outcome that ends the call. *)
Definition outcome_body (oc : Outcome) : string :=
  match oc with
  | Failed _ => ""
  | Responded _ rb => body_of rb
  end.

(** The outcomes of requests [h], [h + 1], ..., delivered in turn. *)
Fixpoint deliveries (h : Handle) (ocs : list Outcome) : list Input :=
  match ocs with
  | [] => []
  | oc :: rest => deliver h oc :: deliveries (S h) rest
  end.

(** The status [attemptRetry] is asked with for an outcome, and the tag the
    handler puts on the span. *)
Definition outcome_status (oc : Outcome) : Z :=
  match oc with
  | Failed _ => 0
  | Responded sc _ => sc
  end.

Definition outcome_tag (oc : Outcome) : TagKey * TagValue :=
  match oc with
  | Failed reason => (Error, TagStr (failure_text reason))
  | Responded sc _ => (HttpStatusCode, TagStr (to_string sc))
  end.

(** A response with status 200. *)
Definition is_ok (oc : Outcome) : bool :=
  match oc with
  | Failed _ => false
  | Responded sc _ => sc =? Http_Code_OK
  end.

(** A status the transport can deliver: a [uint64_t]. *)
Definition deliverable (oc : Outcome) : bool :=
  match oc with
  | Failed _ => true
  | Responded sc _ => (0 <=? sc) && (sc <? 2 ^ 64)
  end.

(** The instance has a request and a span in flight. *)
Definition InFlightAt (w : World) (h : Handle) (sp : SpanId) : Prop :=
  request_ (self w) = Some h /\ request_span_ (self w) = Some sp /\
  outstanding (trace w) = [h] /\ open_spans (trace w) = [sp] /\
  count is_call (trace w) = 1%nat /\ count is_cancel (trace w) = 0%nat /\
  count is_done (trace w) = 0%nat /\ count is_deferred (trace w) = 0%nat /\
  count is_send (trace w) = count is_token (trace w).

(** What [makeOneCall] hands to the transport for the request with handle
    [h]: the configured cluster and timeout, and the message
    [prepareHeaders] builds from the token of fetch number [h], which is
    not empty. *)
Definition well_formed_request (env : Env)
    (r : Handle * string * Message * Z) : Prop :=
  let '(h, c, m, tmo) := r in
  c = cluster env /\ tmo = timeout_ms_ env /\
  m = prepareHeaders env (token_fn_ env h) /\
  empty (token_fn_ env h) = false.

Definition handle_of (r : Handle * string * Message * Z) : Handle :=
  fst (fst (fst r)).

Arguments wrap32 : simpl never.
Arguments to_string : simpl never.

(** * Properties *)

(** Unfolds the trace functions over the events a handler has added. *)
Ltac tr_simpl :=
  cbn [self trace count is_call is_cancel is_token is_spawn is_send
       is_request_cancel is_done is_deferred outstanding open_spans
       quiet_after_termination sequential done_calls span_names
       retries_ request_count_ request_ request_span_
       set_retries_ set_request_count_ set_request_ set_request_span_
       spend report andb negb orb fst snd names_upto app
       cancel_span cancel_request] in *.

Section Facts.

Variable env : Env.

Lemma makeOneCall_attempt (o : HttpCallImpl) (t : Trace) :
  makeOneCall env (mkWorld o t) = Some (tt, attempt env o t).
Proof.
  unfold makeOneCall, attempt.
  cbv [bind assign token_fn observed emit ret self trace].
  destruct (empty (token_fn_ env (count is_token t))); [reflexivity|].
  cbv [bind this spawnChild setTag finishSpan send assign observed emit ret
       self trace set_request_span_ set_request_count_ set_request_
       request_span_ request_count_ retries_ request_].
  destruct o; reflexivity.
Qed.

Lemma attemptRetry_closed (sc : Z) (o : HttpCallImpl) (t : Trace) :
  attemptRetry env sc (mkWorld o t) =
  if retryable sc o then Some (true, attempt env (spend o) t)
  else Some (false, mkWorld o t).
Proof.
  unfold attemptRetry, retryable.
  destruct ((400 <=? sc) && (sc <? 500)); [reflexivity|].
  unfold bind at 1. unfold this at 1. cbn [self negb andb].
  destruct (retries_ o <=? 0); [reflexivity|].
  cbn [negb]. unfold bind, assign, reset. cbn [self trace].
  fold (spend o).
  change (match makeOneCall env (mkWorld (spend o) t) with
          | Some (_, w') => ret true w'
          | None => None
          end = Some (true, attempt env (spend o) t)).
  rewrite makeOneCall_attempt. reflexivity.
Qed.

Lemma onSuccess_closed (sc : Z) (rb : option string) (o : HttpCallImpl)
    (t : Trace) (sp : SpanId) :
  request_span_ o = Some sp ->
  onSuccess env sc rb (mkWorld o t) =
  let t1 := EvFinishSpan sp
            :: EvSetTag sp HttpStatusCode (TagStr (to_string sc)) :: t in
  if sc =? Http_Code_OK then Some (tt, report Status_OK (body_of rb) o t1)
  else if retryable sc o then Some (tt, attempt env (spend o) t1)
  else Some (tt, report call_failed (body_of rb) o t1).
Proof.
  intros Hsp. destruct o as [r rc rq rs]. cbn in Hsp. subst rs.
  unfold onSuccess.
  cbv [bind setTag finishSpan this emit self trace request_span_].
  cbv zeta. destruct (sc =? Http_Code_OK); [reflexivity|].
  rewrite attemptRetry_closed.
  match goal with |- context [retryable sc ?x] =>
    destruct (retryable sc x) end; reflexivity.
Qed.

Lemma onFailure_closed (reason : FailureReason) (o : HttpCallImpl)
    (t : Trace) (sp : SpanId) :
  request_span_ o = Some sp ->
  onFailure env reason (mkWorld o t) =
  let t1 := EvFinishSpan sp
            :: EvSetTag sp Error (TagStr (failure_text reason)) :: t in
  if retryable 0 o then Some (tt, attempt env (spend o) t1)
  else Some (tt, report call_failed "" o t1).
Proof.
  intros Hsp. destruct o as [r rc rq rs]. cbn in Hsp. subst rs.
  unfold onFailure.
  assert (Htag : forall w,
    match reason with
    | Reset => setTag Error (TagStr "the stream has been reset")
    | OtherReason => setTag Error (TagStr "unknown network error")
    end w = setTag Error (TagStr (failure_text reason)) w)
    by (intro; destruct reason; reflexivity).
  unfold bind at 1. rewrite Htag.
  cbv [bind setTag finishSpan this emit self trace request_span_].
  rewrite attemptRetry_closed.
  match goal with |- context [retryable 0 ?x] =>
    destruct (retryable 0 x) end; reflexivity.
Qed.

Lemma onSuccess_null_span (sc : Z) (rb : option string) (o : HttpCallImpl)
    (t : Trace) :
  request_span_ o = None -> onSuccess env sc rb (mkWorld o t) = None.
Proof.
  intros Hsp. destruct o as [r rc rq rs]. cbn in Hsp. subst rs. reflexivity.
Qed.

Lemma cancel_closed (o : HttpCallImpl) (t : Trace) :
  cancel (mkWorld o t) =
  Some (tt, mkWorld (set_request_ None o)
                    (EvDeferredDelete
                     :: cancel_request o ++ cancel_span o ++ t)).
Proof.
  unfold cancel, cancel_request, cancel_span.
  destruct o as [r rc rq rs].
  destruct rs as [sp|], rq as [h|]; reflexivity.
Qed.

(** ** Arithmetic of the counters *)

Lemma wrap32_small (z : Z) : 0 <= z < 2 ^ 32 -> wrap32 z = z.
Proof. intros Hz. unfold wrap32. apply Z.mod_small. exact Hz. Qed.

Lemma wrap32_succ (z : Z) : wrap32 (wrap32 z + 1) = wrap32 (z + 1).
Proof. unfold wrap32. apply Z.add_mod_idemp_l. lia. Qed.

Lemma wrap32_pred (z : Z) : wrap32 (wrap32 z - 1) = wrap32 (z - 1).
Proof.
  unfold wrap32. rewrite <- (Z.add_opp_r (z mod 2 ^ 32)), <- (Z.add_opp_r z).
  apply Z.add_mod_idemp_l. lia.
Qed.

(** While fewer than [2 ^ 32] attempts were made, the name the source
    computes from the wrapped counter is the one the specification gives
    for the next attempt. *)
Lemma span_name_spec (n : nat) :
  Z.of_nat n < 2 ^ 32 ->
  span_name env (wrap32 (wrap32 (Z.of_nat n) + 1))
  = spec_span_name (trace_operation_name_ env) (S n).
Proof.
  intros Hn. rewrite wrap32_succ. unfold span_name, spec_span_name.
  rewrite wrap32_pred.
  replace (Z.of_nat n + 1 - 1) with (Z.of_nat n) by lia.
  rewrite (wrap32_small (Z.of_nat n)) by lia.
  replace (Z.of_nat (S n) - 1) with (Z.of_nat n) by lia.
  destruct n as [|n'].
  - reflexivity.
  - assert (Hne : (wrap32 (Z.of_nat (S n') + 1) =? 1) = false).
    { apply Z.eqb_neq. unfold wrap32.
      destruct (Z.eq_dec (Z.of_nat (S n') + 1) (2 ^ 32)) as [e|ne].
      - rewrite e. rewrite Z.mod_same by lia. lia.
      - rewrite Z.mod_small by lia. lia. }
    rewrite Hne. reflexivity.
Qed.

Lemma remove_singleton (h : nat) : remove Nat.eq_dec h [h] = [].
Proof. cbn. destruct (Nat.eq_dec h h); [reflexivity|congruence]. Qed.

Lemma existsb_singleton (h h0 : nat) :
  existsb (Nat.eqb h) [h0] = true -> h = h0.
Proof.
  cbn. rewrite orb_false_r. apply Nat.eqb_eq.
Qed.

Lemma done_calls_nil (t : Trace) : count is_done t = O -> done_calls t = [].
Proof.
  induction t as [|e t IH]; [reflexivity|].
  destruct e; cbn; try exact IH. discriminate.
Qed.

(** ** Events that leave the steady facts alone *)

Lemma Steady_silent (R : Z) (o : HttpCallImpl) (e : Event) (t : Trace) :
  silent e = true -> Steady env R o t -> Steady env R o (e :: t).
Proof.
  intros He [H1 H2 H3 H4 H5 H6 H7 H8].
  destruct e; try discriminate He; constructor; cbn; auto.
Qed.

Lemma Steady_self (R : Z) (o o' : HttpCallImpl) (t : Trace) :
  retries_ o' = retries_ o -> request_count_ o' = request_count_ o ->
  Steady env R o t -> Steady env R o' t.
Proof.
  intros Hr Hc [H1 H2 H3 H4 H5 H6 H7 H8].
  constructor; auto; congruence.
Qed.

(** ** The pieces of a handler keep the lifecycle *)


Section Reachability.

Variable R : Z.
Hypothesis R_range : 0 <= R < 2 ^ 32.

Lemma attempt_Inv (o : HttpCallImpl) (t : Trace) :
  Retrying env R 0 o t -> request_ o = None -> Inv env R (attempt env o t).
Proof.
  intros [[H1 H2 H3 H4 H5 H6 H7 H8] Hb Hc Hx Hd Hdd Ho Hop Hall] Hrq.
  assert (Hn : Z.of_nat (count is_token t) < 2 ^ 32) by lia.
  unfold attempt.
  destruct (empty (token_fn_ env (count is_token t))) eqn:Hempty.
  - constructor; tr_simpl.
    + constructor; tr_simpl; auto.
      * rewrite H2, wrap32_succ. f_equal. lia.
      * constructor; [right; left; reflexivity|exact H8].
    + lia.
    + apply PhaseDone with (st := missing_token) (b := ""); tr_simpl; auto.
      rewrite (done_calls_nil t Hd). reflexivity.
  - constructor; tr_simpl.
    + constructor; tr_simpl; auto.
      * rewrite H2, wrap32_succ. f_equal. lia.
      * lia.
      * unfold terminated. tr_simpl. rewrite Hd, Hx, H5. reflexivity.
      * rewrite Ho, Hop, H6. reflexivity.
      * rewrite H7, H2, H4, Hall. f_equal.
        apply span_name_spec. exact Hn.
    + lia.
    + eapply PhaseInFlight; tr_simpl; try reflexivity; auto.
      * rewrite Ho. reflexivity.
      * rewrite Hop. reflexivity.
Qed.

Lemma report_Inv (st : Status) (b : string) (o : HttpCallImpl) (t : Trace) :
  Retrying env R 1 o t -> known_status st -> is_missing_token st = false ->
  Inv env R (report st b o t).
Proof.
  intros [[H1 H2 H3 H4 H5 H6 H7 H8] Hb Hc Hx Hd Hdd Ho Hop Hall] Hst Hm.
  constructor; tr_simpl.
  - constructor; tr_simpl; auto.
  - lia.
  - apply PhaseDone with (st := st) (b := b); tr_simpl; auto.
    + rewrite (done_calls_nil t Hd). reflexivity.
    + rewrite Hm, Hdd. reflexivity.
Qed.

Lemma spend_Retrying (o : HttpCallImpl) (t : Trace) :
  Retrying env R 1 o t -> 0 < retries_ o ->
  Retrying env R 0 (spend o) t /\ request_ (spend o) = None
  /\ retries_ (spend o) = retries_ o - 1.
Proof.
  intros [[H1 H2 H3 H4 H5 H6 H7 H8] Hb Hc Hx Hd Hdd Ho Hop Hall] Hpos.
  assert (Hw : wrap32 (retries_ o - 1) = retries_ o - 1)
    by (apply wrap32_small; lia).
  repeat split; tr_simpl; auto; rewrite ?Hw; lia.
Qed.

(** The transport answers the request in flight: after the span is tagged
    and finished, the instance is between attempts. *)
Lemma outcome_Retrying (o : HttpCallImpl) (t : Trace) (e : Event)
    (h : Handle) (sp : SpanId) (k : TagKey) (v : TagValue) :
  Inv env R (mkWorld o t) ->
  outstanding t = [h] -> request_span_ o = Some sp -> open_spans t = [sp] ->
  e = EvOnFailure h Reset \/ e = EvOnFailure h OtherReason
  \/ (exists sc rb, e = EvOnSuccess h sc rb) ->
  count is_call t = 1%nat -> count is_cancel t = 0%nat ->
  count is_done t = 0%nat -> count is_deferred t = 0%nat ->
  count is_send t = count is_token t ->
  Retrying env R 1 o (EvFinishSpan sp :: EvSetTag sp k v :: e :: t).
Proof.
  intros [Hs Hb Hp] Hout Hsp Hopen He Hc Hx Hd Hdd Hall.
  cbn [self trace] in *.
  assert (Hsil : silent e = true)
    by (destruct He as [->|[->|(sc & rb & ->)]]; reflexivity).
  assert (Hcnt : forall p, (p = is_call \/ p = is_cancel \/ p = is_done
                     \/ p = is_deferred \/ p = is_send \/ p = is_token) ->
                   count p (e :: t) = count p t).
  { intros p Hp'.
    destruct He as [->|[->|(sc & rb & ->)]];
      destruct Hp' as [->|[->|[->|[->|[->| ->]]]]]; reflexivity. }
  constructor.
  - repeat (apply Steady_silent; [reflexivity || exact Hsil|]). exact Hs.
  - tr_simpl. rewrite (Hcnt is_token) by tauto. lia.
  - tr_simpl. rewrite (Hcnt is_call) by tauto. exact Hc.
  - tr_simpl. rewrite (Hcnt is_cancel) by tauto. exact Hx.
  - tr_simpl. rewrite (Hcnt is_done) by tauto. exact Hd.
  - tr_simpl. rewrite (Hcnt is_deferred) by tauto. exact Hdd.
  - tr_simpl.
    destruct He as [->|[->|(sc & rb & ->)]]; tr_simpl; rewrite Hout;
      apply remove_singleton.
  - tr_simpl.
    destruct He as [->|[->|(sc & rb & ->)]]; tr_simpl; rewrite Hopen;
      apply remove_singleton.
  - tr_simpl. rewrite (Hcnt is_send), (Hcnt is_token) by tauto. exact Hall.
Qed.

(** A callback is permitted only in flight. *)
Lemma permitted_in_flight (o : HttpCallImpl) (t : Trace) (h : Handle) :
  Inv env R (mkWorld o t) ->
  existsb (Nat.eqb h) (outstanding t) = true ->
  exists sp,
    request_ o = Some h /\ request_span_ o = Some sp /\
    outstanding t = [h] /\ open_spans t = [sp] /\
    count is_call t = 1%nat /\ count is_cancel t = 0%nat /\
    count is_done t = 0%nat /\ count is_deferred t = 0%nat /\
    count is_send t = count is_token t.
Proof.
  intros [Hs Hb Hp] Hex. cbn [self trace] in *.
  destruct Hp as [Ht Ho|h0 sp Hrq Hsp Hout Hopen Hc Hx Hd Hdd Hall
                 |st b Hrq Hout|Hrq Hout].
  - subst t. discriminate Hex.
  - rewrite Hout in Hex. apply existsb_singleton in Hex. subst h0.
    exists sp. repeat split; assumption.
  - rewrite Hout in Hex. discriminate Hex.
  - rewrite Hout in Hex. discriminate Hex.
Qed.

Lemma answered_Retrying (o : HttpCallImpl) (t : Trace) (e : Event)
    (h : Handle) (k : TagKey) (v : TagValue) :
  Inv env R (mkWorld o t) ->
  existsb (Nat.eqb h) (outstanding t) = true ->
  e = EvOnFailure h Reset \/ e = EvOnFailure h OtherReason
  \/ (exists sc rb, e = EvOnSuccess h sc rb) ->
  exists sp,
    request_span_ o = Some sp /\
    Retrying env R 1 o (EvFinishSpan sp :: EvSetTag sp k v :: e :: t).
Proof.
  intros HI Hex He.
  destruct (permitted_in_flight o t h HI Hex)
    as (sp & Hrq & Hsp & Hout & Hopen & Hc & Hx & Hd & Hdd & Hall).
  exists sp. split; [exact Hsp|].
  eapply outcome_Retrying; eauto.
Qed.

Lemma retryable_budget (sc : Z) (o : HttpCallImpl) :
  retryable sc o = true -> 0 < retries_ o.
Proof.
  unfold retryable. intros H. apply andb_prop in H. destruct H as [_ H].
  apply negb_true_iff in H. apply Z.leb_gt in H. exact H.
Qed.

(** After an outcome that is not a success: retry or report. *)
Lemma decide_Inv (sc : Z) (b : string) (o : HttpCallImpl) (t : Trace) :
  Retrying env R 1 o t ->
  Inv env R (if retryable sc o then attempt env (spend o) t
             else report call_failed b o t).
Proof.
  intros Hr. destruct (retryable sc o) eqn:Hretry.
  - apply retryable_budget in Hretry.
    destruct (spend_Retrying o t Hr Hretry) as (Hr' & Hrq & _).
    apply attempt_Inv; assumption.
  - apply report_Inv; [exact Hr|right; right; reflexivity|reflexivity].
Qed.

Lemma create_Inv : Inv env R (create R).
Proof.
  constructor; cbn [create self trace].
  - constructor; tr_simpl; auto. lia.
  - tr_simpl. lia.
  - apply PhaseIdle; reflexivity.
Qed.

Lemma call_Inv (o : HttpCallImpl) (t : Trace) (w' : World) :
  Inv env R (mkWorld o t) ->
  step env (mkWorld o t) InCall = Some w' -> Inv env R w'.
Proof.
  intros [Hs Hb Hp] Hstep. unfold step in Hstep. cbn [self trace] in *.
  destruct (permitted t InCall) eqn:Hperm; [|discriminate].
  cbn [handler event_of] in Hstep. unfold call in Hstep.
  rewrite makeOneCall_attempt in Hstep. injection Hstep as <-.
  cbn [permitted] in Hperm. unfold disposed in Hperm.
  apply andb_prop in Hperm. destruct Hperm as [Hc Hdd].
  apply Nat.eqb_eq in Hc. apply negb_true_iff, negb_false_iff in Hdd.
  apply Nat.eqb_eq in Hdd.
  destruct Hp as [Ht Ho|h0 sp Hrq Hsp Hout Hopen Hc' Hx' Hd' Hdd' Hall
                 |st b Hrq Hout Hopen Hc'|Hrq Hout Hopen Hc' Hx' Hd' Hdd'];
    try congruence.
  subst t o. apply attempt_Inv; [|reflexivity].
  repeat split; tr_simpl; auto; lia.
Qed.

Lemma cancel_Inv (o : HttpCallImpl) (t : Trace) (w' : World) :
  Inv env R (mkWorld o t) ->
  step env (mkWorld o t) InCancel = Some w' -> Inv env R w'.
Proof.
  intros [Hs Hb Hp] Hstep. unfold step in Hstep. cbn [self trace] in *.
  destruct (permitted t InCancel) eqn:Hperm; [|discriminate].
  cbn [handler event_of] in Hstep.
  rewrite cancel_closed in Hstep. injection Hstep as <-.
  cbn [permitted] in Hperm. unfold disposed in Hperm.
  apply andb_prop in Hperm. destruct Hperm as [Hd Hdd].
  apply Nat.eqb_eq in Hd. apply negb_true_iff, negb_false_iff in Hdd.
  apply Nat.eqb_eq in Hdd.
  destruct Hp as [Ht Ho|h0 sp Hrq Hsp Hout Hopen Hc' Hx' Hd' Hdd' Hall
                 |st b Hrq Hout Hopen Hc' Hx' Hdc Hd'
                 |Hrq Hout Hopen Hc' Hx' Hd' Hdd'];
    try congruence.
  - subst t o. constructor; tr_simpl.
    + constructor; tr_simpl; auto; lia.
    + lia.
    + apply PhaseCancelled; tr_simpl; auto.
  - destruct o as [r rc rq rs]. tr_simpl. subst rq rs. tr_simpl.
    constructor; tr_simpl.
    + repeat (apply Steady_silent; [reflexivity|]).
      eapply Steady_self; [| |exact Hs]; reflexivity.
    + lia.
    + apply PhaseCancelled; tr_simpl; auto.
      * rewrite Hout. apply remove_singleton.
      * rewrite Hopen. apply remove_singleton.
      * lia.
Qed.

Lemma onSuccess_Inv (o : HttpCallImpl) (t : Trace) (h : Handle) (sc : Z)
    (rb : option string) (w' : World) :
  Inv env R (mkWorld o t) ->
  step env (mkWorld o t) (InOnSuccess h sc rb) = Some w' -> Inv env R w'.
Proof.
  intros HI Hstep. unfold step in Hstep. cbn [self trace] in *.
  destruct (permitted t (InOnSuccess h sc rb)) eqn:Hperm; [|discriminate].
  cbn [handler event_of] in Hstep. cbn [permitted] in Hperm.
  apply andb_prop in Hperm. destruct Hperm as [Hperm _].
  apply andb_prop in Hperm. destruct Hperm as [Hex _].
  destruct (answered_Retrying o t (EvOnSuccess h sc rb) h HttpStatusCode
              (TagStr (to_string sc)) HI Hex) as (sp & Hsp & Hr).
  { right; right; eauto. }
  rewrite (onSuccess_closed sc rb o _ sp Hsp) in Hstep. cbv zeta in Hstep.
  destruct (sc =? Http_Code_OK).
  - injection Hstep as <-.
    apply report_Inv; [exact Hr|left; reflexivity|reflexivity].
  - pose proof (decide_Inv sc (body_of rb) o _ Hr) as HD.
    destruct (retryable sc o); injection Hstep as <-; exact HD.
Qed.

Lemma onFailure_Inv (o : HttpCallImpl) (t : Trace) (h : Handle)
    (reason : FailureReason) (w' : World) :
  Inv env R (mkWorld o t) ->
  step env (mkWorld o t) (InOnFailure h reason) = Some w' -> Inv env R w'.
Proof.
  intros HI Hstep. unfold step in Hstep. cbn [self trace] in *.
  destruct (permitted t (InOnFailure h reason)) eqn:Hex; [|discriminate].
  cbn [handler event_of] in Hstep. cbn [permitted] in Hex.
  destruct (answered_Retrying o t (EvOnFailure h reason) h Error
              (TagStr (failure_text reason)) HI Hex) as (sp & Hsp & Hr).
  { destruct reason; tauto. }
  rewrite (onFailure_closed reason o _ sp Hsp) in Hstep. cbv zeta in Hstep.
  pose proof (decide_Inv 0 "" o _ Hr) as HD.
  destruct (retryable 0 o); injection Hstep as <-; exact HD.
Qed.

(** Every step the contract permits keeps the invariant. *)
Lemma step_Inv (w w' : World) (i : Input) :
  Inv env R w -> step env w i = Some w' -> Inv env R w'.
Proof.
  destruct w as [o t]. intros HI Hstep. destruct i.
  - eapply call_Inv; eassumption.
  - eapply cancel_Inv; eassumption.
  - eapply onSuccess_Inv; eassumption.
  - eapply onFailure_Inv; eassumption.
Qed.

(** Every step the contract permits is defined: the handlers never
    dereference a null span. *)
Lemma step_total (w : World) (i : Input) :
  Inv env R w -> permitted (trace w) i = true ->
  exists w', step env w i = Some w'.
Proof.
  destruct w as [o t]. intros HI Hperm. unfold step. cbn [self trace] in *.
  rewrite Hperm. destruct i; cbn [handler event_of].
  - unfold call. rewrite makeOneCall_attempt. eauto.
  - rewrite cancel_closed. eauto.
  - cbn [permitted] in Hperm.
    apply andb_prop in Hperm. destruct Hperm as [Hperm _].
    apply andb_prop in Hperm. destruct Hperm as [Hex _].
    destruct (permitted_in_flight o t h HI Hex) as (sp & _ & Hsp & _).
    rewrite (onSuccess_closed _ _ _ _ sp Hsp). cbv zeta.
    destruct (status_code =? Http_Code_OK); [eauto|].
    destruct (retryable status_code o); eauto.
  - cbn [permitted] in Hperm.
    destruct (permitted_in_flight o t h HI Hperm) as (sp & _ & Hsp & _).
    rewrite (onFailure_closed _ _ _ sp Hsp). cbv zeta.
    destruct (retryable 0 o); eauto.
Qed.

Lemma run_Inv (inputs : list Input) (w w' : World) :
  Inv env R w -> run env inputs w = Some w' -> Inv env R w'.
Proof.
  revert w. induction inputs as [|i rest IH]; intros w HI Hrun.
  - cbn in Hrun. injection Hrun as <-. exact HI.
  - cbn [run] in Hrun. destruct (step env w i) as [w1|] eqn:Hstep.
    + apply (IH w1); [eapply step_Inv; eassumption|exact Hrun].
    + discriminate.
Qed.

(** The worlds a call can be in. *)
Lemma reachable_Inv (inputs : list Input) (w : World) :
  run env inputs (create R) = Some w -> Inv env R w.
Proof. apply run_Inv, create_Inv. Qed.

(** ** Closed forms of the permitted steps *)

Lemma step_onSuccess_closed (o : HttpCallImpl) (t : Trace) (h : Handle)
    (sc : Z) (rb : option string) :
  Inv env R (mkWorld o t) ->
  permitted t (InOnSuccess h sc rb) = true ->
  exists sp,
    request_ o = Some h /\ request_span_ o = Some sp /\
    count is_done t = 0%nat /\
    step env (mkWorld o t) (InOnSuccess h sc rb) =
    Some (let t1 := EvFinishSpan sp
                    :: EvSetTag sp HttpStatusCode (TagStr (to_string sc))
                    :: EvOnSuccess h sc rb :: t in
          if sc =? Http_Code_OK then report Status_OK (body_of rb) o t1
          else if retryable sc o then attempt env (spend o) t1
          else report call_failed (body_of rb) o t1).
Proof.
  intros HI Hperm. unfold step. cbn [self trace]. rewrite Hperm.
  cbn [permitted] in Hperm.
  apply andb_prop in Hperm. destruct Hperm as [Hperm _].
  apply andb_prop in Hperm. destruct Hperm as [Hex _].
  destruct (permitted_in_flight o t h HI Hex)
    as (sp & Hrq & Hsp & _ & _ & _ & _ & Hd & _).
  exists sp. repeat split; try assumption.
  cbn [handler event_of]. rewrite (onSuccess_closed _ _ _ _ sp Hsp).
  cbv zeta. destruct (sc =? Http_Code_OK); [reflexivity|].
  destruct (retryable sc o); reflexivity.
Qed.

Lemma step_onFailure_closed (o : HttpCallImpl) (t : Trace) (h : Handle)
    (reason : FailureReason) :
  Inv env R (mkWorld o t) ->
  permitted t (InOnFailure h reason) = true ->
  exists sp,
    request_ o = Some h /\ request_span_ o = Some sp /\
    count is_done t = 0%nat /\
    step env (mkWorld o t) (InOnFailure h reason) =
    Some (let t1 := EvFinishSpan sp
                    :: EvSetTag sp Error (TagStr (failure_text reason))
                    :: EvOnFailure h reason :: t in
          if retryable 0 o then attempt env (spend o) t1
          else report call_failed "" o t1).
Proof.
  intros HI Hperm. unfold step. cbn [self trace]. rewrite Hperm.
  cbn [permitted] in Hperm.
  destruct (permitted_in_flight o t h HI Hperm)
    as (sp & Hrq & Hsp & _ & _ & _ & _ & Hd & _).
  exists sp. repeat split; try assumption.
  cbn [handler event_of]. rewrite (onFailure_closed _ _ _ sp Hsp).
  cbv zeta. destruct (retryable 0 o); reflexivity.
Qed.

Lemma step_call_closed (w : World) :
  Inv env R w -> permitted (trace w) InCall = true ->
  w = create R /\
  step env w InCall = Some (attempt env (mkImpl R 0 None None) [EvCall]).
Proof.
  destruct w as [o t]. intros [Hs Hb Hp] Hperm. cbn [self trace] in *.
  assert (Hw : mkWorld o t = create R).
  { cbn [permitted] in Hperm. unfold disposed in Hperm.
    apply andb_prop in Hperm. destruct Hperm as [Hc Hdd].
    apply Nat.eqb_eq in Hc. apply negb_true_iff, negb_false_iff in Hdd.
    apply Nat.eqb_eq in Hdd.
    destruct Hp as [Ht Ho|h0 sp Hrq Hsp Hout Hopen Hc' Hx' Hd' Hdd' Hall
                   |st b Hrq Hout Hopen Hc'|Hrq Hout Hopen Hc' Hx' Hd' Hdd'];
      try congruence.
    subst. reflexivity. }
  split; [exact Hw|]. rewrite Hw. unfold step, create. cbn [self trace].
  cbn [permitted count is_call Nat.eqb disposed is_deferred negb andb].
  cbn [handler event_of]. unfold call. rewrite makeOneCall_attempt.
  reflexivity.
Qed.

(** A call that has reported or was cancelled accepts nothing more. *)
Lemma terminated_no_input (w : World) (i : Input) :
  Inv env R w -> terminated (trace w) = true ->
  permitted (trace w) i = false.
Proof.
  destruct w as [o t]. intros [Hs Hb Hp] Hterm. cbn [self trace] in *.
  unfold terminated in Hterm. apply negb_true_iff, Nat.eqb_neq in Hterm.
  destruct Hp as [Ht Ho|h0 sp Hrq Hsp Hout Hopen Hc' Hx' Hd' Hdd' Hall
                 |st b Hrq Hout Hopen Hc' Hx' Hdc Hd' Hdd'
                 |Hrq Hout Hopen Hc' Hx' Hd' Hdd'].
  - subst t. cbn in Hterm. congruence.
  - rewrite Hx', Hd' in Hterm. cbn in Hterm. congruence.
  - destruct i; cbn [permitted]; unfold disposed;
      rewrite ?Hc', ?Hd', ?Hout; reflexivity.
  - destruct i; cbn [permitted]; unfold disposed;
      rewrite ?Hdd', ?Hout; cbn; rewrite ?andb_false_r; reflexivity.
Qed.

End Reachability.

End Facts.

(** * The scenarios of the specification *)

Example to_string_decimal :
  to_string 0 = "0" /\ to_string 200 = "200"
  /\ to_string 4294967295 = "4294967295".
Proof. repeat split; vm_compute; reflexivity. Qed.

Example scenario_A :
  option_map observe (run (demo_env []) [InCall] (create 3))
  = Some ([(missing_token, "")], 0, 0, [], false)%nat.
Proof. vm_compute. reflexivity. Qed.

Example scenario_B :
  option_map observe
    (run (demo_env ["t"]) [InCall; InOnSuccess 0%nat 200 (Some "OK")]
         (create 3))
  = Some ([(Status_OK, "OK")], 1, 0, ["Report"], true)%nat.
Proof. vm_compute. reflexivity. Qed.

Example scenario_C :
  option_map observe
    (run (demo_env ["t"; "t"; "t"])
         [InCall; InOnSuccess 0%nat 503 (Some "b1");
          InOnSuccess 1%nat 503 (Some "b2");
          InOnSuccess 2%nat 200 (Some "b3")]
         (create 2))
  = Some ([(Status_OK, "b3")], 3, 0,
          ["Report"; "Report - Retry 1"; "Report - Retry 2"], true)%nat.
Proof. vm_compute. reflexivity. Qed.

Example scenario_D :
  option_map observe
    (run (demo_env ["t"; "t"])
         [InCall; InOnSuccess 0%nat 503 (Some "b1");
          InOnSuccess 1%nat 503 (Some "b2")]
         (create 1))
  = Some ([(call_failed, "b2")], 2, 0,
          ["Report"; "Report - Retry 1"], true)%nat.
Proof. vm_compute. reflexivity. Qed.

Example scenario_E :
  option_map observe
    (run (demo_env ["t"; "t"]) [InCall; InOnSuccess 0%nat 404 (Some "b")]
         (create 5))
  = Some ([(call_failed, "b")], 1, 0, ["Report"], true)%nat.
Proof. vm_compute. reflexivity. Qed.

Example scenario_F :
  option_map (fun w => (observe w, firstn 4 (trace w)))
    (run (demo_env ["t"]) [InCall; InCancel] (create 5))
  = Some (([], 1, 1, ["Report"], true)%nat,
          [EvDeferredDelete; EvRequestCancel 0%nat; EvFinishSpan 0%nat;
           EvSetTag 0%nat Error Canceled]).
Proof. vm_compute. reflexivity. Qed.

(** A callback for a request the transport does not hold, and a second
    [cancel], are outside the contract. *)
Example refused_inputs :
  run (demo_env ["t"]) [InCall; InOnSuccess 1%nat 200 None] (create 5) = None
  /\ run (demo_env ["t"]) [InCall; InCancel; InCancel] (create 5) = None.
Proof. split; vm_compute; reflexivity. Qed.

(** * The properties of the specification *)

Section Attempts.

Variable env : Env.

Lemma attempt_tokens (o : HttpCallImpl) (t : Trace) :
  count is_token (trace (attempt env o t)) = S (count is_token t).
Proof.
  unfold attempt. destruct (empty (token_fn_ env (count is_token t)));
    reflexivity.
Qed.

Lemma attempt_retries (o : HttpCallImpl) (t : Trace) :
  retries_ (self (attempt env o t)) = retries_ o.
Proof.
  unfold attempt. destruct (empty (token_fn_ env (count is_token t)));
    reflexivity.
Qed.

Lemma Phase_called_once (R : Z) (o : HttpCallImpl) (t : Trace) :
  Phase R o t -> (count is_call t <= 1)%nat.
Proof.
  intros [Ht _|h sp _ _ _ _ Hc|st b _ _ _ Hc|_ _ _ Hc]; subst; cbn; lia.
Qed.

Lemma report_done_calls (st : Status) (b : string) (o : HttpCallImpl)
    (t : Trace) :
  count is_done t = O -> done_calls (trace (report st b o t)) = [(st, b)].
Proof.
  intros Hd. cbn [report trace done_calls].
  rewrite (done_calls_nil t Hd). reflexivity.
Qed.

Lemma retryable_spec (sc : Z) (o : HttpCallImpl) :
  retryable sc o = true <-> ~ (400 <= sc < 500) /\ 0 < retries_ o.
Proof.
  unfold retryable. rewrite andb_true_iff, !negb_true_iff, andb_false_iff.
  rewrite Z.leb_gt, Z.leb_gt, Z.ltb_ge. lia.
Qed.

End Attempts.

(** What the retry leaves behind after an outcome of request [h]: the
    attempt is counted and the token fetched; with a token, a new request
    is in the transport's hands; without, the missing token is reported. *)
Lemma retry_attempt_facts (env : Env) (o : HttpCallImpl) (t : Trace)
    (h : Handle) (sp : SpanId) (k : TagKey) (v : TagValue) (e : Event) :
  e = EvOnFailure h Reset \/ e = EvOnFailure h OtherReason
  \/ (exists sc rb, e = EvOnSuccess h sc rb) ->
  outstanding t = [h] ->
  let w' := attempt env (spend o) (EvFinishSpan sp :: EvSetTag sp k v
                                   :: e :: t) in
  count is_token (trace w') = S (count is_token t) /\
  retries_ (self w') = wrap32 (retries_ o - 1) /\
  (empty (token_fn_ env (count is_token t)) = false ->
   request_ (self w') = Some (count is_send t) /\
   count is_send (trace w') = S (count is_send t) /\
   outstanding (trace w') = [count is_send t] /\
   done_calls (trace w') = done_calls t) /\
  (empty (token_fn_ env (count is_token t)) = true ->
   request_ (self w') = None /\
   count is_send (trace w') = count is_send t /\
   outstanding (trace w') = [] /\
   done_calls (trace w') = (missing_token, "") :: done_calls t).
Proof.
  intros He Hout. cbv zeta. unfold attempt.
  assert (Hk : count is_token (EvFinishSpan sp :: EvSetTag sp k v :: e :: t)
               = count is_token t)
    by (destruct He as [->|[->|(sc & rb & ->)]]; reflexivity).
  assert (Hn : count is_send (EvFinishSpan sp :: EvSetTag sp k v :: e :: t)
               = count is_send t)
    by (destruct He as [->|[->|(sc & rb & ->)]]; reflexivity).
  assert (Hd : done_calls (EvFinishSpan sp :: EvSetTag sp k v :: e :: t)
               = done_calls t)
    by (destruct He as [->|[->|(sc & rb & ->)]]; reflexivity).
  assert (Ho : outstanding (EvFinishSpan sp :: EvSetTag sp k v :: e :: t)
               = [])
    by (destruct He as [->|[->|(sc & rb & ->)]];
        cbn [outstanding]; rewrite Hout; apply remove_singleton).
  set (t1 := EvFinishSpan sp :: EvSetTag sp k v :: e :: t) in *.
  clearbody t1. rewrite Hk.
  destruct (empty (token_fn_ env (count is_token t)));
    cbn [self trace count is_token is_send outstanding done_calls
         retries_ request_ set_request_count_ spend set_request_
         set_retries_];
    rewrite ?Hk, ?Hn, ?Hd, ?Ho; repeat split; intros; congruence.
Qed.

(** C1.  After an outcome that is not a success, [attemptRetry] retries
    exactly when the status is outside [400, 500) and the budget is
    positive.  A retry takes one from the budget and starts a new attempt:
    what [attemptRetry] leaves is what [makeOneCall] makes of the instance
    with the budget lowered and the request pointer cleared; the token is
    fetched once more and, when it is not empty, one more request is sent
    and is then the one outstanding.  A call created with budget [R] sends
    at most [R + 1] requests; and with the budget at zero an outcome that
    is not a success makes [on_done_] fire with an [INTERNAL] status. *)
Theorem retry_eligibility (env : Env) (R : Z) (inputs : list Input)
    (w : World) :
  0 <= R < 2 ^ 32 ->
  run env inputs (create R) = Some w ->
  (forall (sc : Z) (t : Trace),
     exists (retried : bool) (w' started : World),
       attemptRetry env sc (mkWorld (self w) t) = Some (retried, w') /\
       makeOneCall env
         (mkWorld (set_request_ None
                     (set_retries_ (retries_ (self w) - 1) (self w))) t)
       = Some (tt, started) /\
       (retried = true <-> ~ (400 <= sc < 500) /\ 0 < retries_ (self w)) /\
       (retried = true ->
          w' = started /\
          retries_ (self w') = retries_ (self w) - 1 /\
          count is_token (trace w') = S (count is_token t) /\
          (empty (token_fn_ env (count is_token t)) = false ->
           request_ (self w') = Some (count is_send t) /\
           count is_send (trace w') = S (count is_send t))) /\
       (retried = false -> w' = mkWorld (self w) t)) /\
  Z.of_nat (count is_send (trace w)) <= R + 1 /\
  (forall i : Input,
     permitted (trace w) i = true -> non_success i ->
     starts_attempt (self w) i ->
     exists w' : World,
       step env w i = Some w' /\
       retries_ (self w') = retries_ (self w) - 1 /\
       count is_token (trace w') = S (count is_token (trace w)) /\
       (empty (token_fn_ env (count is_token (trace w))) = false ->
        request_ (self w') = Some (count is_send (trace w)) /\
        count is_send (trace w') = S (count is_send (trace w)) /\
        outstanding (trace w') = [count is_send (trace w)] /\
        done_calls (trace w') = [])) /\
  (retries_ (self w) = 0 ->
   forall i : Input,
     permitted (trace w) i = true -> non_success i ->
     exists (w' : World) (b : string),
       step env w i = Some w' /\
       done_calls (trace w') = [(call_failed, b)] /\
       code call_failed = INTERNAL).
Proof.
  intros HR Hrun.
  pose proof (reachable_Inv env R HR inputs w Hrun) as HI.
  destruct w as [o t0]. cbn [self trace].
  pose proof HI as [Hs Hb Hp]. cbn [self trace] in *.
  pose proof (steady_budget _ _ _ _ Hs) as Hrange.
  assert (Hspent : 0 < retries_ o ->
            spend o = set_request_ None (set_retries_ (retries_ o - 1) o)).
  { intros Hpos. unfold spend. rewrite wrap32_small by lia. reflexivity. }
  split; [|split; [|split]].
  - intros sc t. rewrite attemptRetry_closed, makeOneCall_attempt.
    pose proof (retryable_spec sc o) as Hspec.
    destruct (retryable sc o).
    + assert (Hpos : 0 < retries_ o) by (apply Hspec; reflexivity).
      rewrite <- (Hspent Hpos).
      exists true, (attempt env (spend o) t), (attempt env (spend o) t).
      split; [reflexivity|]. split; [reflexivity|]. split; [tauto|].
      split; [|discriminate]. intros _.
      split; [reflexivity|]. split; [|split].
      * rewrite attempt_retries.
        cbn [spend set_request_ set_retries_ retries_].
        apply wrap32_small. lia.
      * apply attempt_tokens.
      * intros He. unfold attempt. rewrite He. split; reflexivity.
    + eexists false, (mkWorld o t), _.
      split; [reflexivity|]. split; [reflexivity|].
      split; [|split; [discriminate|reflexivity]].
      split; [discriminate|]. intros H. apply Hspec in H. discriminate.
  - pose proof (steady_sends _ _ _ _ Hs) as Hsends.
    pose proof (Phase_called_once R o t0 Hp). lia.
  - intros i Hperm Hns Hstart.
    destruct i as [| |h sc rb|h reason]; try contradiction.
    + destruct (step_onSuccess_closed env R o t0 h sc rb HI Hperm)
        as (sp & _ & _ & Hd & Hstep).
      cbv zeta in Hstep. cbn [starts_attempt] in Hstart.
      destruct Hstart as [Hne Hretry]. apply Z.eqb_neq in Hne.
      rewrite Hne, Hretry in Hstep.
      cbn [permitted] in Hperm.
      apply andb_prop in Hperm. destruct Hperm as [Hperm _].
      apply andb_prop in Hperm. destruct Hperm as [Hex _].
      destruct (permitted_in_flight env R o t0 h HI Hex)
        as (sp' & _ & _ & Hout & _).
      destruct (retry_attempt_facts env o t0 h sp HttpStatusCode
                  (TagStr (to_string sc)) (EvOnSuccess h sc rb))
        as (Hk & Hr & Hsent & _); [right; right; eauto|exact Hout|].
      eexists. split; [exact Hstep|]. split; [|split; [exact Hk|]].
      * rewrite Hr. apply wrap32_small.
        apply retryable_budget in Hretry. lia.
      * intros He. destruct (Hsent He) as (H1 & H2 & H3 & H4).
        rewrite (done_calls_nil t0 Hd) in H4. auto.
    + destruct (step_onFailure_closed env R o t0 h reason HI Hperm)
        as (sp & _ & _ & Hd & Hstep).
      cbv zeta in Hstep. cbn [starts_attempt] in Hstart.
      rewrite Hstart in Hstep.
      cbn [permitted] in Hperm.
      destruct (permitted_in_flight env R o t0 h HI Hperm)
        as (sp' & _ & _ & Hout & _).
      destruct (retry_attempt_facts env o t0 h sp Error
                  (TagStr (failure_text reason)) (EvOnFailure h reason))
        as (Hk & Hr & Hsent & _);
        [destruct reason; tauto|exact Hout|].
      eexists. split; [exact Hstep|]. split; [|split; [exact Hk|]].
      * rewrite Hr. apply wrap32_small.
        apply retryable_budget in Hstart. lia.
      * intros He. destruct (Hsent He) as (H1 & H2 & H3 & H4).
        rewrite (done_calls_nil t0 Hd) in H4. auto.
  - intros Hzero i Hperm Hns.
    assert (Hno : forall sc, retryable sc o = false).
    { intros sc. unfold retryable. rewrite Hzero. cbn.
      apply andb_false_r. }
    destruct i as [| |h sc rb|h reason]; try contradiction.
    + destruct (step_onSuccess_closed env R o t0 h sc rb HI Hperm)
        as (sp & _ & _ & Hd & Hstep).
      cbv zeta in Hstep. cbn [non_success] in Hns.
      apply Z.eqb_neq in Hns. rewrite Hns, Hno in Hstep.
      eexists. exists (body_of rb). split; [exact Hstep|].
      split; [|reflexivity]. apply report_done_calls. exact Hd.
    + destruct (step_onFailure_closed env R o t0 h reason HI Hperm)
        as (sp & _ & _ & Hd & Hstep).
      cbv zeta in Hstep. rewrite Hno in Hstep.
      eexists. exists "". split; [exact Hstep|].
      split; [|reflexivity]. apply report_done_calls. exact Hd.
Qed.

Lemma retry_eligibility_witness :
  let env := demo_env ["t"; "t"] in
  let inputs := [InCall] in
  0 <= 1 < 2 ^ 32 /\
  run env inputs (create 1) = Some (world_after env 1 inputs) /\
  Z.of_nat (count is_send (trace (world_after env 1 inputs))) <= 1 + 1 /\
  exists w' : World,
    step env (world_after env 1 inputs) (InOnSuccess 0%nat 503 (Some "busy"))
    = Some w' /\
    retries_ (self w') = 0 /\
    count is_send (trace w') = 2%nat /\
    outstanding (trace w') = [1%nat].
Proof.
  cbv zeta. split; [lia|]. split; [vm_compute; reflexivity|].
  destruct (retry_eligibility (demo_env ["t"; "t"]) 1 [InCall]
              (world_after (demo_env ["t"; "t"]) 1 [InCall]))
    as (_ & Hsends & Hretry & _).
  - lia.
  - vm_compute. reflexivity.
  - split; [exact Hsends|].
    destruct (Hretry (InOnSuccess 0%nat 503 (Some "busy")))
      as (w' & Hstep & Hr & _ & Hsent).
    + vm_compute. reflexivity.
    + cbn. discriminate.
    + split; [discriminate|vm_compute; reflexivity].
    + destruct Hsent as (_ & Hn & Hout & _); [vm_compute; reflexivity|].
      exists w'. split; [exact Hstep|]. split; [exact Hr|].
      split; [exact Hn|exact Hout].
Defined.

(** C2.  In every world a call can reach, [on_done_] has fired at most
    once; a call that was started, was not cancelled and has nothing in
    flight has fired it exactly once (success, failure that is not retried,
    budget exhausted, or missing token); a cancelled call has fired it zero
    times; no request was sent after [on_done_] fired or [cancel] was
    called; and from then on the instance takes no further step. *)
Theorem exactly_one_completion (env : Env) (R : Z) (inputs : list Input)
    (w : World) :
  0 <= R < 2 ^ 32 ->
  run env inputs (create R) = Some w ->
  (count is_done (trace w) <= 1)%nat /\
  (count is_call (trace w) = 1%nat -> count is_cancel (trace w) = 0%nat ->
   outstanding (trace w) = [] -> count is_done (trace w) = 1%nat) /\
  (count is_cancel (trace w) <> 0%nat -> count is_done (trace w) = 0%nat) /\
  quiet_after_termination (trace w) = true /\
  (terminated (trace w) = true -> forall i : Input, step env w i = None).
Proof.
  intros HR Hrun.
  pose proof (reachable_Inv env R HR inputs w Hrun) as HI.
  pose proof HI as [Hs Hb Hp].
  repeat split.
  - destruct Hp as [Ht Ho|h sp _ _ _ _ _ _ Hd|st b _ _ _ _ _ _ Hd
                   |_ _ _ _ _ Hd]; try lia.
    rewrite Ht. cbn. lia.
  - intros Hc Hx Hout.
    destruct Hp as [Ht Ho|h sp _ _ Hout' _ _ _ Hd|st b _ _ _ _ _ _ Hd
                   |_ _ _ _ Hx' Hd]; try congruence.
    rewrite Ht in Hc. discriminate Hc.
  - intros Hx.
    destruct Hp as [Ht Ho|h sp _ _ _ _ _ Hx' Hd|st b _ _ _ _ Hx' _ Hd
                   |_ _ _ _ _ Hd]; try congruence.
    rewrite Ht. reflexivity.
  - exact (steady_quiet _ _ _ _ Hs).
  - intros Hterm i. unfold step.
    rewrite (terminated_no_input env R w i HI Hterm). reflexivity.
Qed.

Lemma exactly_one_completion_witness :
  let env := demo_env ["t"; "t"] in
  let inputs := [InCall; InOnSuccess 0%nat 503 None; InOnFailure 1%nat Reset] in
  0 <= 1 < 2 ^ 32 /\
  run env inputs (create 1) = Some (world_after env 1 inputs) /\
  count is_done (trace (world_after env 1 inputs)) = 1%nat.
Proof.
  cbv zeta. split; [lia|]. split; [vm_compute; reflexivity|].
  apply (exactly_one_completion (demo_env ["t"; "t"]) 1
           [InCall; InOnSuccess 0%nat 503 None; InOnFailure 1%nat Reset]);
    try lia; vm_compute; reflexivity.
Defined.

Lemma empty_inv (s : string) : empty s = true -> s = "".
Proof. destruct s; [reflexivity|discriminate]. Qed.

Lemma attempt_empty_token (env : Env) (o : HttpCallImpl) (t : Trace) :
  empty (token_fn_ env (count is_token t)) = true ->
  attempt env o t =
  mkWorld (set_request_count_ (wrap32 (request_count_ o + 1)) o)
          (EvOnDone missing_token "" :: EvTokenFn "" :: t).
Proof.
  intros He. unfold attempt. rewrite He.
  rewrite (empty_inv _ He). reflexivity.
Qed.

(** The status reported for an empty token is not of the authentication
    class: on a first attempt with an empty token, [on_done_] is given a
    status whose code is [INTERNAL], the code of the call-failed status. *)
Lemma empty_token_status_is_internal :
  exists (w : World) (st : Status),
    run (demo_env []) [InCall] (create 3) = Some w /\
    done_calls (trace w) = [(st, "")] /\
    ~ authentication_class st /\
    internal_class st /\
    code st = code call_failed.
Proof.
  eexists. eexists. split; [vm_compute; reflexivity|].
  split; [reflexivity|]. split; [discriminate|]. split; reflexivity.
Qed.

(** C3, amended.  Whenever the token function returns the empty string at
    the start of an attempt, [makeOneCall] does nothing but count the
    attempt and call [on_done_] once, at once, with an empty body and a
    status of code [INTERNAL], the code of every other failure, told apart
    only by its message, which names the missing access token: no span is
    spawned and nothing is sent.  This holds for the first attempt
    ([call]), for a retry inside [attemptRetry], and for the whole step of
    a call in any reachable world, where it is the only [on_done_] of the
    call. *)
Theorem empty_token_fails_immediately (env : Env) (R : Z)
    (inputs : list Input) (w : World) :
  0 <= R < 2 ^ 32 ->
  run env inputs (create R) = Some w ->
  (forall (o : HttpCallImpl) (t : Trace),
     empty (token_fn_ env (count is_token t)) = true ->
     let t' := EvOnDone missing_token "" :: EvTokenFn "" :: t in
     let counted o := set_request_count_ (wrap32 (request_count_ o + 1)) o in
     makeOneCall env (mkWorld o t) = Some (tt, mkWorld (counted o) t') /\
     call env (mkWorld o t) = Some (tt, mkWorld (counted o) t') /\
     (forall sc : Z, retryable sc o = true ->
        attemptRetry env sc (mkWorld o t)
        = Some (true, mkWorld (counted (spend o)) t'))) /\
  (forall i : Input,
     permitted (trace w) i = true ->
     starts_attempt (self w) i ->
     empty (token_fn_ env (count is_token (trace w))) = true ->
     exists w' : World,
       step env w i = Some w' /\
       done_calls (trace w') = [(missing_token, "")] /\
       count is_done (trace w') = 1%nat /\
       count is_spawn (trace w') = count is_spawn (trace w) /\
       count is_send (trace w') = count is_send (trace w)) /\
  code missing_token = INTERNAL /\
  message missing_token = "Missing access token for service control call".
Proof.
  intros HR Hrun.
  pose proof (reachable_Inv env R HR inputs w Hrun) as HI.
  split; [|split; [|split; reflexivity]].
  - intros o t He. cbv zeta. repeat split.
    + rewrite makeOneCall_attempt, (attempt_empty_token env o t He).
      reflexivity.
    + unfold call.
      rewrite makeOneCall_attempt, (attempt_empty_token env o t He).
      reflexivity.
    + intros sc Hretry.
      rewrite attemptRetry_closed, Hretry.
      rewrite (attempt_empty_token env (spend o) t He). reflexivity.
  - intros i Hperm Hstart He.
    destruct i as [| |h sc rb|h reason]; cbn [starts_attempt] in Hstart.
    + destruct (step_call_closed env R w HI Hperm) as [Hw Hstep].
      subst w. cbn [create trace count] in He.
      rewrite attempt_empty_token in Hstep by exact He.
      eexists. split; [exact Hstep|]. repeat split.
    + contradiction.
    + destruct w as [o t]. cbn [self trace] in *.
      destruct (step_onSuccess_closed env R o t h sc rb HI Hperm)
        as (sp & _ & _ & Hd & Hstep).
      cbv zeta in Hstep. destruct Hstart as [Hne Hretry].
      apply Z.eqb_neq in Hne. rewrite Hne, Hretry in Hstep.
      rewrite attempt_empty_token in Hstep by exact He.
      eexists. split; [exact Hstep|]. tr_simpl.
      rewrite (done_calls_nil t Hd), Hd. repeat split.
    + destruct w as [o t]. cbn [self trace] in *.
      destruct (step_onFailure_closed env R o t h reason HI Hperm)
        as (sp & _ & _ & Hd & Hstep).
      cbv zeta in Hstep. rewrite Hstart in Hstep.
      rewrite attempt_empty_token in Hstep by exact He.
      eexists. split; [exact Hstep|]. tr_simpl.
      rewrite (done_calls_nil t Hd), Hd. repeat split.
Qed.

Lemma empty_token_fails_immediately_witness :
  let env := demo_env ["t"] in
  let inputs := [InCall] in
  0 <= 3 < 2 ^ 32 /\
  run env inputs (create 3) = Some (world_after env 3 inputs) /\
  exists w' : World,
    step env (world_after env 3 inputs) (InOnFailure 0%nat Reset) = Some w' /\
    done_calls (trace w') = [(missing_token, "")] /\
    count is_done (trace w') = 1%nat /\
    count is_spawn (trace w') = 1%nat /\
    count is_send (trace w') = 1%nat.
Proof.
  cbv zeta. split; [lia|]. split; [vm_compute; reflexivity|].
  apply (empty_token_fails_immediately (demo_env ["t"]) 3 [InCall]
           (world_after (demo_env ["t"]) 3 [InCall])).
  - lia.
  - vm_compute. reflexivity.
  - vm_compute. reflexivity.
  - vm_compute. reflexivity.
  - vm_compute. reflexivity.
Defined.

(** C4.  In every reachable world where the transport may report a failure,
    [onFailure] finds a span, tags it [Error] with a text that tells a
    stream reset from any other network error and finishes it; it then asks
    [attemptRetry] with status 0, which the [400, 500) rule never turns
    away: with budget left the failure is always retried, that is,
    [attemptRetry] answers true and leaves what [makeOneCall] makes of the
    instance with the budget lowered by one and the request pointer
    cleared, so that with a token a new request is sent and outstanding;
    with no budget left [on_done_] gets an [INTERNAL] status and an empty
    body, the request is dropped and the deletion deferred. *)
Theorem transport_failure_handling (env : Env) (R : Z) (inputs : list Input)
    (w : World) (h : Handle) (reason : FailureReason) :
  0 <= R < 2 ^ 32 ->
  run env inputs (create R) = Some w ->
  permitted (trace w) (InOnFailure h reason) = true ->
  exists sp : SpanId,
    request_span_ (self w) = Some sp /\
    failure_text Reset = "the stream has been reset" /\
    failure_text OtherReason = "unknown network error" /\
    code call_failed = INTERNAL /\
    (forall t : Trace,
       let t1 := EvFinishSpan sp
                 :: EvSetTag sp Error (TagStr (failure_text reason)) :: t in
       exists started : World,
         makeOneCall env
           (mkWorld (set_request_ None
                       (set_retries_ (retries_ (self w) - 1) (self w))) t1)
         = Some (tt, started) /\
         attemptRetry env 0 (mkWorld (self w) t1)
         = Some (if 0 <? retries_ (self w) then (true, started)
                 else (false, mkWorld (self w) t1)) /\
         onFailure env reason (mkWorld (self w) t)
         = Some (tt, if 0 <? retries_ (self w) then started
                     else mkWorld (set_request_ None (self w))
                            (EvDeferredDelete
                             :: EvOnDone call_failed "" :: t1))) /\
    (0 < retries_ (self w) ->
     exists w' : World,
       step env w (InOnFailure h reason) = Some w' /\
       retries_ (self w') = retries_ (self w) - 1 /\
       count is_token (trace w') = S (count is_token (trace w)) /\
       (empty (token_fn_ env (count is_token (trace w))) = false ->
        request_ (self w') = Some (count is_send (trace w)) /\
        count is_send (trace w') = S (count is_send (trace w)) /\
        outstanding (trace w') = [count is_send (trace w)] /\
        done_calls (trace w') = []) /\
       (empty (token_fn_ env (count is_token (trace w))) = true ->
        request_ (self w') = None /\
        count is_send (trace w') = count is_send (trace w) /\
        outstanding (trace w') = [] /\
        done_calls (trace w') = [(missing_token, "")])) /\
    (retries_ (self w) <= 0 ->
     exists w' : World,
       step env w (InOnFailure h reason) = Some w' /\
       done_calls (trace w') = [(call_failed, "")] /\
       count is_send (trace w') = count is_send (trace w) /\
       count is_deferred (trace w') = 1%nat /\
       request_ (self w') = None).
Proof.
  intros HR Hrun Hperm.
  pose proof (reachable_Inv env R HR inputs w Hrun) as HI.
  destruct w as [o t0]. cbn [self trace] in *.
  destruct (step_onFailure_closed env R o t0 h reason HI Hperm)
    as (sp & _ & Hsp & Hd & Hstep).
  cbv zeta in Hstep.
  pose proof HI as [Hs _ _]. cbn [self trace] in Hs.
  pose proof (steady_budget _ _ _ _ Hs) as Hrange.
  assert (Hretry : retryable 0 o = (0 <? retries_ o)).
  { unfold retryable. cbn [Z.leb Z.ltb Z.compare andb negb].
    destruct (Z.leb_spec (retries_ o) 0), (Z.ltb_spec 0 (retries_ o));
      try reflexivity; lia. }
  assert (Hspent : 0 < retries_ o ->
            spend o = set_request_ None (set_retries_ (retries_ o - 1) o)).
  { intros Hpos. unfold spend. rewrite wrap32_small by lia. reflexivity. }
  cbn [permitted] in Hperm.
  destruct (permitted_in_flight env R o t0 h HI Hperm)
    as (sp' & _ & _ & Hout & _ & _ & _ & _ & Hdd & _).
  exists sp. split; [exact Hsp|]. do 3 (split; [reflexivity|]).
  split; [|split].
  - intros t. cbv zeta.
    rewrite attemptRetry_closed, (onFailure_closed env reason o t sp Hsp).
    cbv zeta. rewrite makeOneCall_attempt, Hretry.
    eexists. split; [reflexivity|].
    destruct (Z.ltb_spec 0 (retries_ o)) as [Hpos|Hle].
    + rewrite (Hspent Hpos). split; reflexivity.
    + split; reflexivity.
  - intros Hpos. rewrite Hretry in Hstep.
    apply Z.ltb_lt in Hpos. rewrite Hpos in Hstep. apply Z.ltb_lt in Hpos.
    destruct (retry_attempt_facts env o t0 h sp Error
                (TagStr (failure_text reason)) (EvOnFailure h reason))
      as (Hk & Hr & Hsent & Hlost);
      [destruct reason; tauto|exact Hout|].
    eexists. split; [exact Hstep|]. split; [|split; [exact Hk|split]].
    + rewrite Hr. apply wrap32_small. lia.
    + intros He. destruct (Hsent He) as (H1 & H2 & H3 & H4).
      rewrite (done_calls_nil t0 Hd) in H4. auto.
    + intros He. destruct (Hlost He) as (H1 & H2 & H3 & H4).
      rewrite (done_calls_nil t0 Hd) in H4. auto.
  - intros Hle. rewrite Hretry in Hstep.
    assert (Hno : (0 <? retries_ o) = false) by (apply Z.ltb_ge; exact Hle).
    rewrite Hno in Hstep.
    eexists. split; [exact Hstep|].
    split; [apply report_done_calls; exact Hd|].
    destruct reason; cbn [report trace self count is_send is_deferred
                          is_done request_ set_request_];
      rewrite Hdd; repeat split.
Qed.

Lemma transport_failure_handling_witness :
  let env := demo_env ["t"; "t"] in
  0 <= 1 < 2 ^ 32 /\
  run env [InCall] (create 1) = Some (world_after env 1 [InCall]) /\
  permitted (trace (world_after env 1 [InCall])) (InOnFailure 0%nat Reset)
  = true /\
  exists (sp : SpanId) (w' : World),
    request_span_ (self (world_after env 1 [InCall])) = Some sp /\
    step env (world_after env 1 [InCall]) (InOnFailure 0%nat Reset)
    = Some w' /\
    retries_ (self w') = 0 /\
    outstanding (trace w') = [1%nat].
Proof.
  cbv zeta. split; [lia|]. split; [vm_compute; reflexivity|].
  split; [vm_compute; reflexivity|].
  destruct (transport_failure_handling (demo_env ["t"; "t"]) 1 [InCall]
              (world_after (demo_env ["t"; "t"]) 1 [InCall]) 0%nat Reset)
    as (sp & Hsp & _ & _ & _ & _ & Hretry & _).
  - lia.
  - vm_compute. reflexivity.
  - vm_compute. reflexivity.
  - destruct Hretry as (w' & Hstep & Hr & _ & Hsent & _);
      [vm_compute; reflexivity|].
    destruct Hsent as (_ & _ & Hout & _); [vm_compute; reflexivity|].
    exists sp, w'. split; [exact Hsp|]. split; [exact Hstep|].
    split; [exact Hr|exact Hout].
Defined.

Lemma attempt_no_OK (env : Env) (o : HttpCallImpl) (t : Trace) (b : string) :
  count is_done t = O ->
  ~ In (Status_OK, b) (done_calls (trace (attempt env o t))).
Proof.
  intros Hd. unfold attempt.
  destruct (empty (token_fn_ env (count is_token t))); tr_simpl;
    rewrite (done_calls_nil t Hd); cbn.
  - intros [H|[]]. discriminate H.
  - tauto.
Qed.

(** C5.  In every reachable world where the transport may deliver a
    response, [onSuccess] finds a span, tags it [HttpStatusCode] with the
    status in decimal and finishes it.  With status 200 it calls
    [on_done_ (Status::OK, body)], drops the request and defers the
    deletion; with any other status it asks [attemptRetry] and, when that
    does not retry, calls [on_done_] with an [INTERNAL] status and the
    response body.  The step reports [Status::OK] exactly when the status
    is 200. *)
Theorem response_handling (env : Env) (R : Z) (inputs : list Input)
    (w : World) (h : Handle) (sc : Z) (rb : option string) :
  0 <= R < 2 ^ 32 ->
  run env inputs (create R) = Some w ->
  permitted (trace w) (InOnSuccess h sc rb) = true ->
  exists sp : SpanId,
    request_span_ (self w) = Some sp /\
    code call_failed = INTERNAL /\
    (forall t : Trace,
       let t1 := EvFinishSpan sp
                 :: EvSetTag sp HttpStatusCode (TagStr (to_string sc))
                 :: t in
       (sc = 200 ->
        onSuccess env sc rb (mkWorld (self w) t)
        = Some (tt, mkWorld (set_request_ None (self w))
                      (EvDeferredDelete
                       :: EvOnDone Status_OK (body_of rb) :: t1))) /\
       (sc <> 200 ->
        exists (retried : bool) (w1 : World),
          attemptRetry env sc (mkWorld (self w) t1) = Some (retried, w1) /\
          onSuccess env sc rb (mkWorld (self w) t)
          = Some (tt, if retried then w1
                      else mkWorld (set_request_ None (self w))
                             (EvDeferredDelete
                              :: EvOnDone call_failed (body_of rb) :: t1)))) /\
    exists w' : World,
      step env w (InOnSuccess h sc rb) = Some w' /\
      (In (Status_OK, body_of rb) (done_calls (trace w')) <-> sc = 200).
Proof.
  intros HR Hrun Hperm.
  pose proof (reachable_Inv env R HR inputs w Hrun) as HI.
  destruct w as [o t0]. cbn [self trace] in *.
  destruct (step_onSuccess_closed env R o t0 h sc rb HI Hperm)
    as (sp & _ & Hsp & Hd & Hstep).
  exists sp. split; [exact Hsp|]. split; [reflexivity|]. split.
  - intros t. cbv zeta. split.
    + intros ->. rewrite (onSuccess_closed env 200 rb o t sp Hsp).
      reflexivity.
    + intros Hne. rewrite attemptRetry_closed.
      rewrite (onSuccess_closed env sc rb o t sp Hsp). cbv zeta.
      apply Z.eqb_neq in Hne. unfold Http_Code_OK. rewrite Hne.
      destruct (retryable sc o).
      * exists true. eexists. split; reflexivity.
      * exists false. eexists. split; reflexivity.
  - cbv zeta in Hstep. eexists. split; [exact Hstep|].
    unfold Http_Code_OK. destruct (Z.eqb_spec sc 200) as [->|Hne].
    + rewrite report_done_calls by exact Hd. cbn. tauto.
    + split; [|tauto]. intros Hin. exfalso.
      destruct (retryable sc o).
      * revert Hin. apply attempt_no_OK. exact Hd.
      * rewrite report_done_calls in Hin by exact Hd.
        destruct Hin as [H|[]]. discriminate H.
Qed.

Lemma response_handling_witness :
  let env := demo_env ["t"] in
  0 <= 3 < 2 ^ 32 /\
  run env [InCall] (create 3) = Some (world_after env 3 [InCall]) /\
  permitted (trace (world_after env 3 [InCall]))
            (InOnSuccess 0%nat 200 (Some "OK")) = true /\
  exists w' : World,
    step env (world_after env 3 [InCall]) (InOnSuccess 0%nat 200 (Some "OK"))
    = Some w' /\
    (In (Status_OK, "OK") (done_calls (trace w')) <-> 200 = 200).
Proof.
  cbv zeta. split; [lia|]. split; [vm_compute; reflexivity|].
  split; [vm_compute; reflexivity|].
  destruct (response_handling (demo_env ["t"]) 3 [InCall]
              (world_after (demo_env ["t"]) 3 [InCall]) 0%nat 200 (Some "OK"))
    as (sp & _ & _ & _ & Hstep).
  - lia.
  - vm_compute. reflexivity.
  - vm_compute. reflexivity.
  - exact Hstep.
Defined.

(** C6.  An attempt that is made (its token is not empty) with sequence
    number [n], [1 <= n <= 2 ^ 32], spawns a span named as the
    specification says, the operation name for [n = 1] and
    ["<op> - Retry <n-1>"] otherwise, and tags it with the component, the
    cluster, the request URI and the method POST before it sends the
    request.  In every reachable world the counter is the number of
    attempts so far, and the spans spawned carry, in order, the names of
    attempts 1, 2, ... *)
Theorem span_naming (env : Env) (R : Z) (inputs : list Input) (w : World) :
  0 <= R < 2 ^ 32 ->
  run env inputs (create R) = Some w ->
  (forall (n : nat) (o : HttpCallImpl) (t : Trace),
     (1 <= n)%nat -> Z.of_nat n <= 2 ^ 32 ->
     request_count_ o = wrap32 (Z.of_nat n - 1) ->
     empty (token_fn_ env (count is_token t)) = false ->
     let token := token_fn_ env (count is_token t) in
     let sp := count is_spawn t in
     exists w' : World,
       makeOneCall env (mkWorld o t) = Some (tt, w') /\
       request_span_ (self w') = Some sp /\
       trace w' =
       EvSend (count is_send t) (cluster env) (prepareHeaders env token)
              (timeout_ms_ env)
       :: EvSetTag sp HttpMethod (TagStr "POST")
       :: EvSetTag sp HttpUrl (TagStr (uri_ env))
       :: EvSetTag sp UpstreamCluster (TagStr (cluster env))
       :: EvSetTag sp Component Proxy
       :: EvSpawnChild sp (spec_span_name (trace_operation_name_ env) n)
       :: EvTokenFn token :: t) /\
  request_count_ (self w) = wrap32 (Z.of_nat (count is_token (trace w))) /\
  Z.of_nat (count is_token (trace w)) <= R + 1 /\
  span_names (trace w)
  = names_upto (trace_operation_name_ env) (count is_spawn (trace w)).
Proof.
  intros HR Hrun.
  pose proof (reachable_Inv env R HR inputs w Hrun) as [Hs Hb Hp].
  split; [|split; [|split]].
  - intros n o t Hn1 Hn2 Hrc He. cbv zeta.
    rewrite makeOneCall_attempt. unfold attempt. rewrite He.
    eexists. split; [reflexivity|]. split; [reflexivity|].
    cbn [trace]. do 5 f_equal.
    destruct n as [|m]; [lia|].
    rewrite Hrc. replace (Z.of_nat (S m) - 1) with (Z.of_nat m) by lia.
    rewrite span_name_spec by lia. reflexivity.
  - exact (steady_count _ _ _ _ Hs).
  - pose proof (steady_budget _ _ _ _ Hs).
    pose proof (Phase_called_once R _ _ Hp). lia.
  - exact (steady_names _ _ _ _ Hs).
Qed.

Lemma span_naming_witness :
  let env := demo_env ["t"; "t"; "t"] in
  let inputs := [InCall; InOnSuccess 0%nat 503 None;
                 InOnFailure 1%nat OtherReason] in
  0 <= 2 < 2 ^ 32 /\
  run env inputs (create 2) = Some (world_after env 2 inputs) /\
  span_names (trace (world_after env 2 inputs))
  = ["Report - Retry 2"; "Report - Retry 1"; "Report"].
Proof.
  cbv zeta. split; [lia|]. split; [vm_compute; reflexivity|].
  pose proof (span_naming (demo_env ["t"; "t"; "t"]) 2
                [InCall; InOnSuccess 0%nat 503 None;
                 InOnFailure 1%nat OtherReason]
                (world_after (demo_env ["t"; "t"; "t"]) 2
                   [InCall; InOnSuccess 0%nat 503 None;
                    InOnFailure 1%nat OtherReason])) as H.
  destruct H as (_ & _ & _ & Hnames).
  - lia.
  - vm_compute. reflexivity.
  - rewrite Hnames. vm_compute. reflexivity.
Defined.

(** C7.  [cancel], from any state: a span that is set is tagged
    [Error = Canceled] and finished; a request that is set is cancelled on
    the transport, once, and the pointer cleared; the deletion is deferred
    in every case; [on_done_] is not called.  In a reachable world where
    [cancel] is permitted, the step adds exactly these events, leaves
    nothing outstanding, [on_done_] has never fired, and no later step
    exists that could fire it. *)
Theorem cancel_effects (env : Env) (R : Z) (inputs : list Input) (w : World) :
  0 <= R < 2 ^ 32 ->
  run env inputs (create R) = Some w ->
  permitted (trace w) InCancel = true ->
  (forall (o : HttpCallImpl) (t : Trace),
     cancel (mkWorld o t)
     = Some (tt, mkWorld (set_request_ None o)
                   (EvDeferredDelete
                    :: match request_ o with
                       | Some h => [EvRequestCancel h]
                       | None => []
                       end
                    ++ match request_span_ o with
                       | Some sp => [EvFinishSpan sp;
                                     EvSetTag sp Error Canceled]
                       | None => []
                       end
                    ++ t))) /\
  exists w' : World,
    step env w InCancel = Some w' /\
    trace w' = EvDeferredDelete
               :: match request_ (self w) with
                  | Some h => [EvRequestCancel h]
                  | None => []
                  end
               ++ match request_span_ (self w) with
                  | Some sp => [EvFinishSpan sp; EvSetTag sp Error Canceled]
                  | None => []
                  end
               ++ EvCancel :: trace w /\
    request_ (self w') = None /\
    outstanding (trace w') = [] /\
    count is_deferred (trace w') = 1%nat /\
    count is_done (trace w') = 0%nat /\
    forall i : Input, step env w' i = None.
Proof.
  intros HR Hrun Hperm.
  pose proof (reachable_Inv env R HR inputs w Hrun) as HI.
  split; [intros o t; apply cancel_closed|].
  destruct (step_total env R w InCancel HI Hperm) as [w' Hstep].
  exists w'. split; [exact Hstep|].
  pose proof (step_Inv env R HR w w' InCancel HI Hstep) as HI'.
  assert (Htr : trace w' = EvDeferredDelete
                 :: cancel_request (self w) ++ cancel_span (self w)
                 ++ EvCancel :: trace w).
  { unfold step in Hstep. rewrite Hperm in Hstep.
    cbn [handler event_of] in Hstep. rewrite cancel_closed in Hstep.
    injection Hstep as <-. reflexivity. }
  assert (Hx : count is_cancel (trace w') <> O).
  { rewrite Htr. unfold cancel_request, cancel_span.
    destruct (request_ (self w)), (request_span_ (self w)); tr_simpl;
      discriminate. }
  split; [exact Htr|].
  assert (Hterm : terminated (trace w') = true).
  { unfold terminated. apply negb_true_iff, Nat.eqb_neq. lia. }
  destruct HI' as [_ _ Hp].
  destruct Hp as [Ht Ho|h sp _ _ _ _ _ Hx'|st b _ _ _ _ Hx'
                 |Hrq Hout Hopen Hc Hx' Hd Hdd]; try congruence.
  repeat split; try assumption.
  intros i. unfold step.
  rewrite (terminated_no_input env R w' i); [reflexivity| |exact Hterm].
  eapply step_Inv; eassumption.
Qed.

Lemma cancel_effects_witness :
  let env := demo_env ["t"] in
  0 <= 5 < 2 ^ 32 /\
  run env [InCall] (create 5) = Some (world_after env 5 [InCall]) /\
  permitted (trace (world_after env 5 [InCall])) InCancel = true /\
  exists w' : World,
    step env (world_after env 5 [InCall]) InCancel = Some w' /\
    count is_request_cancel (trace w') = 1%nat /\
    count is_done (trace w') = 0%nat.
Proof.
  cbv zeta. split; [lia|]. split; [vm_compute; reflexivity|].
  split; [vm_compute; reflexivity|].
  destruct (cancel_effects (demo_env ["t"]) 5 [InCall]
              (world_after (demo_env ["t"]) 5 [InCall]))
    as (_ & w' & Hstep & Htr & _ & _ & _ & Hd & _).
  - lia.
  - vm_compute. reflexivity.
  - vm_compute. reflexivity.
  - exists w'. split; [exact Hstep|]. split; [|exact Hd].
    rewrite Htr. vm_compute. reflexivity.
Defined.

(** C8.  In every reachable world the budget lies between 0 and the
    configured maximum, the transport holds at most one request of this
    call (the one [request_] points to), and every request was sent, and
    every span spawned, with nothing outstanding and no earlier span open.
    A step leaves the budget alone or, when it is positive, takes exactly
    one from it. *)
Theorem budget_and_single_flight (env : Env) (R : Z) (inputs : list Input)
    (w : World) :
  0 <= R < 2 ^ 32 ->
  run env inputs (create R) = Some w ->
  0 <= retries_ (self w) <= R /\
  (List.length (outstanding (trace w)) <= 1)%nat /\
  outstanding (trace w)
  = match request_ (self w) with Some h => [h] | None => [] end /\
  sequential (trace w) = true /\
  forall (i : Input) (w' : World),
    step env w i = Some w' ->
    retries_ (self w') = retries_ (self w) \/
    (0 < retries_ (self w) /\ retries_ (self w') = retries_ (self w) - 1).
Proof.
  intros HR Hrun.
  pose proof (reachable_Inv env R HR inputs w Hrun) as HI.
  pose proof HI as [Hs Hb Hp].
  pose proof (steady_budget _ _ _ _ Hs) as Hrange.
  assert (Hout : outstanding (trace w)
                 = match request_ (self w) with Some h => [h] | None => [] end).
  { destruct Hp as [Ht Ho|h sp Hrq _ Hout|st b Hrq Hout|Hrq Hout].
    - rewrite Ht, Ho. reflexivity.
    - rewrite Hrq. exact Hout.
    - rewrite Hrq. exact Hout.
    - rewrite Hrq. exact Hout. }
  split; [exact Hrange|]. split; [|split; [exact Hout|split]].
  - rewrite Hout. destruct (request_ (self w)); cbn; lia.
  - exact (steady_sequential _ _ _ _ Hs).
  - intros i w' Hstep.
    assert (Hspend : forall sc t, retryable sc (self w) = true ->
              0 < retries_ (self w) /\
              retries_ (self (attempt env (spend (self w)) t))
              = retries_ (self w) - 1).
    { intros sc t Hretry. apply retryable_budget in Hretry.
      split; [exact Hretry|]. rewrite attempt_retries.
      cbn [spend set_request_ set_retries_ retries_].
      apply wrap32_small. lia. }
    assert (Hperm : permitted (trace w) i = true).
    { unfold step in Hstep. destruct (permitted (trace w) i);
        [reflexivity|discriminate]. }
    destruct w as [o t]. cbn [self trace] in *.
    destruct i as [| |h sc rb|h reason].
    + destruct (step_call_closed env R _ HI Hperm) as [Hw Hstep'].
      rewrite Hstep' in Hstep. injection Hstep as <-.
      injection Hw as -> ->. left. apply attempt_retries.
    + unfold step in Hstep. cbn [self trace] in Hstep.
      rewrite Hperm in Hstep. cbn [handler event_of] in Hstep.
      rewrite cancel_closed in Hstep. injection Hstep as <-.
      left. reflexivity.
    + destruct (step_onSuccess_closed env R o t h sc rb HI Hperm)
        as (sp & _ & _ & _ & Hstep').
      rewrite Hstep' in Hstep. cbv zeta in Hstep.
      destruct (sc =? Http_Code_OK).
      * injection Hstep as <-. left. reflexivity.
      * destruct (retryable sc o) eqn:Hretry; injection Hstep as <-.
        -- right. exact (Hspend sc _ Hretry).
        -- left. reflexivity.
    + destruct (step_onFailure_closed env R o t h reason HI Hperm)
        as (sp & _ & _ & _ & Hstep').
      rewrite Hstep' in Hstep. cbv zeta in Hstep.
      destruct (retryable 0 o) eqn:Hretry; injection Hstep as <-.
      * right. exact (Hspend 0 _ Hretry).
      * left. reflexivity.
Qed.

Lemma budget_and_single_flight_witness :
  let env := demo_env ["t"; "t"] in
  let inputs := [InCall; InOnFailure 0%nat Reset] in
  0 <= 1 < 2 ^ 32 /\
  run env inputs (create 1) = Some (world_after env 1 inputs) /\
  outstanding (trace (world_after env 1 inputs)) = [1%nat] /\
  0 <= retries_ (self (world_after env 1 inputs)) <= 1.
Proof.
  cbv zeta. split; [lia|]. split; [vm_compute; reflexivity|].
  destruct (budget_and_single_flight (demo_env ["t"; "t"]) 1
              [InCall; InOnFailure 0%nat Reset]
              (world_after (demo_env ["t"; "t"]) 1
                 [InCall; InOnFailure 0%nat Reset]))
    as (Hb & _ & Hout & _).
  - lia.
  - vm_compute. reflexivity.
  - split; [|exact Hb]. rewrite Hout. vm_compute. reflexivity.
Defined.

(** Outside the missing-token path, a call that has reported or was
    cancelled has deferred its deletion exactly once. *)
Lemma disposal_except_missing_token (env : Env) (R : Z)
    (inputs : list Input) (w : World) :
  0 <= R < 2 ^ 32 ->
  run env inputs (create R) = Some w ->
  terminated (trace w) = true ->
  (count is_cancel (trace w) = 1%nat /\ count is_deferred (trace w) = 1%nat)
  \/ (exists (st : Status) (b : string),
        done_calls (trace w) = [(st, b)] /\
        count is_deferred (trace w)
        = (if is_missing_token st then 0 else 1)%nat).
Proof.
  intros HR Hrun Hterm.
  pose proof (reachable_Inv env R HR inputs w Hrun) as [_ _ Hp].
  unfold terminated in Hterm. apply negb_true_iff, Nat.eqb_neq in Hterm.
  destruct Hp as [Ht Ho|h sp _ _ _ _ _ Hx Hd|st b _ _ _ _ _ Hdc _ Hdd
                 |_ _ _ _ Hx _ Hdd].
  - rewrite Ht in Hterm. cbn in Hterm. congruence.
  - rewrite Hx, Hd in Hterm. cbn in Hterm. congruence.
  - right. exists st, b. split; assumption.
  - left. split; assumption.
Qed.

(** C9 (the code departs from it).  With an empty token the call reports
    through [on_done_] and returns from [makeOneCall] without
    [deferredDelete]: on the first attempt, and on a retry.  The deletion
    is never deferred afterwards either, since the instance takes no
    further step. *)
Theorem missing_token_never_disposed :
  (exists w : World,
     run (demo_env []) [InCall] (create 3) = Some w /\
     done_calls (trace w) = [(missing_token, "")] /\
     count is_deferred (trace w) = 0%nat /\
     forall i : Input, step (demo_env []) w i = None) /\
  (exists w : World,
     run (demo_env ["t"]) [InCall; InOnSuccess 0%nat 503 None] (create 3)
     = Some w /\
     done_calls (trace w) = [(missing_token, "")] /\
     count is_deferred (trace w) = 0%nat /\
     forall i : Input, step (demo_env ["t"]) w i = None).
Proof.
  split; eexists; (split; [vm_compute; reflexivity|]);
    (split; [reflexivity|]); (split; [reflexivity|]);
    intros i; destruct i; reflexivity.
Qed.

(** C10.  Every status [on_done_] is given in a reachable world is
    [Status::OK] or carries the code [INTERNAL]; the missing-token status
    and the call-failed status have the same code and differ in their
    message.  The call-failed status is what a response in [400, 500)
    yields, and what any outcome other than a 200 yields once the budget
    is zero; the missing-token status is what an attempt with an empty
    token yields. *)
Theorem failures_share_internal_code (env : Env) (R : Z)
    (inputs : list Input) (w : World) :
  0 <= R < 2 ^ 32 ->
  run env inputs (create R) = Some w ->
  Forall (fun p : Status * string =>
            fst p = Status_OK \/
            (code (fst p) = INTERNAL /\
             (fst p = missing_token \/ fst p = call_failed)))
         (done_calls (trace w)) /\
  code missing_token = INTERNAL /\
  code call_failed = INTERNAL /\
  message missing_token <> message call_failed /\
  (forall (h : Handle) (sc : Z) (rb : option string),
     permitted (trace w) (InOnSuccess h sc rb) = true ->
     400 <= sc < 500 \/ (sc <> 200 /\ retries_ (self w) = 0) ->
     exists w' : World,
       step env w (InOnSuccess h sc rb) = Some w' /\
       done_calls (trace w') = [(call_failed, body_of rb)]) /\
  (forall (h : Handle) (reason : FailureReason),
     permitted (trace w) (InOnFailure h reason) = true ->
     retries_ (self w) = 0 ->
     exists w' : World,
       step env w (InOnFailure h reason) = Some w' /\
       done_calls (trace w') = [(call_failed, "")]) /\
  (permitted (trace w) InCall = true ->
   empty (token_fn_ env 0) = true ->
   exists w' : World,
     step env w InCall = Some w' /\
     done_calls (trace w') = [(missing_token, "")]).
Proof.
  intros HR Hrun.
  pose proof (reachable_Inv env R HR inputs w Hrun) as HI.
  pose proof HI as [Hs Hb Hp].
  split; [|split; [reflexivity|split; [reflexivity|split; [discriminate|]]]].
  - pose proof (steady_statuses _ _ _ _ Hs) as Hst.
    eapply Forall_impl; [|exact Hst].
    intros [st b] [H|[H|H]]; cbn [fst] in *; subst st;
      [left|right|right]; auto.
  - destruct w as [o t]. cbn [self trace] in *.
    split; [|split].
    + intros h sc rb Hperm Hcase.
      destruct (step_onSuccess_closed env R o t h sc rb HI Hperm)
        as (sp & _ & _ & Hd & Hstep).
      cbv zeta in Hstep.
      assert (Hne : (sc =? Http_Code_OK) = false)
        by (apply Z.eqb_neq; unfold Http_Code_OK; lia).
      assert (Hno : retryable sc o = false).
      { destruct (retryable sc o) eqn:Hretry; [|reflexivity].
        apply retryable_spec in Hretry. lia. }
      rewrite Hne, Hno in Hstep.
      eexists. split; [exact Hstep|]. apply report_done_calls. exact Hd.
    + intros h reason Hperm Hzero.
      destruct (step_onFailure_closed env R o t h reason HI Hperm)
        as (sp & _ & _ & Hd & Hstep).
      cbv zeta in Hstep.
      assert (Hno : retryable 0 o = false).
      { destruct (retryable 0 o) eqn:Hretry; [|reflexivity].
        apply retryable_spec in Hretry. lia. }
      rewrite Hno in Hstep.
      eexists. split; [exact Hstep|]. apply report_done_calls. exact Hd.
    + intros Hperm He.
      destruct (step_call_closed env R _ HI Hperm) as [_ Hstep].
      rewrite attempt_empty_token in Hstep by exact He.
      eexists. split; [exact Hstep|]. reflexivity.
Qed.

Lemma failures_share_internal_code_witness :
  let env := demo_env ["t"] in
  0 <= 5 < 2 ^ 32 /\
  run env [InCall] (create 5) = Some (world_after env 5 [InCall]) /\
  exists w' : World,
    step env (world_after env 5 [InCall]) (InOnSuccess 0%nat 404 (Some "no"))
    = Some w' /\
    done_calls (trace w') = [(call_failed, "no")].
Proof.
  cbv zeta. split; [lia|]. split; [vm_compute; reflexivity|].
  destruct (failures_share_internal_code (demo_env ["t"]) 5 [InCall]
              (world_after (demo_env ["t"]) 5 [InCall]))
    as (_ & _ & _ & _ & H4xx & _).
  - lia.
  - vm_compute. reflexivity.
  - apply (H4xx 0%nat 404 (Some "no")).
    + vm_compute. reflexivity.
    + left. lia.
Defined.

(** * Further properties of the call *)

Ltac tr_more :=
  cbn [self trace count is_call is_cancel is_token is_spawn is_send
       is_request_cancel is_done is_deferred is_finish is_tag sent
       outstanding open_spans done_calls span_names
       retries_ request_count_ request_ request_span_
       set_retries_ set_request_count_ set_request_ set_request_span_
       spend report andb negb orb fst snd app
       cancel_span cancel_request List.length] in *.

Lemma run_app (env : Env) (a b : list Input) (w : World) :
  run env (a ++ b) w
  = match run env a w with
    | Some w' => run env b w'
    | None => None
    end.
Proof.
  revert w. induction a as [|i a IH]; intros w; [reflexivity|].
  cbn [app run]. destruct (step env w i); [apply IH|reflexivity].
Qed.

Lemma attempt_sends (env : Env) (o : HttpCallImpl) (t : Trace) :
  empty (token_fn_ env (count is_token t)) = false ->
  attempt env o t =
  mkWorld (mkImpl (retries_ o) (wrap32 (request_count_ o + 1))
                  (Some (count is_send t)) (Some (count is_spawn t)))
          (EvSend (count is_send t) (cluster env)
                  (prepareHeaders env (token_fn_ env (count is_token t)))
                  (timeout_ms_ env)
           :: EvSetTag (count is_spawn t) HttpMethod (TagStr "POST")
           :: EvSetTag (count is_spawn t) HttpUrl (TagStr (uri_ env))
           :: EvSetTag (count is_spawn t) UpstreamCluster
                (TagStr (cluster env))
           :: EvSetTag (count is_spawn t) Component Proxy
           :: EvSpawnChild (count is_spawn t)
                (span_name env (wrap32 (request_count_ o + 1)))
           :: EvTokenFn (token_fn_ env (count is_token t)) :: t).
Proof. intros He. unfold attempt. rewrite He. reflexivity. Qed.

(** The shapes a permitted step can take. *)
Lemma step_shape (env : Env) (R : Z) (w w' : World) (i : Input) :
  0 <= R < 2 ^ 32 ->
  Inv env R w -> step env w i = Some w' ->
  (i = InCall /\ w = create R /\
   w' = attempt env (mkImpl R 0 None None) [EvCall])
  \/ (i = InCancel /\ w = create R /\
      w' = mkWorld (mkImpl R 0 None None) [EvDeferredDelete; EvCancel])
  \/ (exists h sp,
        i = InCancel /\ InFlightAt w h sp /\
        w' = mkWorld (set_request_ None (self w))
               (EvDeferredDelete :: EvRequestCancel h :: EvFinishSpan sp
                :: EvSetTag sp Error Canceled :: EvCancel :: trace w))
  \/ (exists h sp oc k v,
        i = deliver h oc /\ InFlightAt w h sp /\
        let t1 := EvFinishSpan sp :: EvSetTag sp k v
                  :: event_of i :: trace w in
        (exists st, (st = Status_OK \/ st = call_failed) /\
                    w' = report st (outcome_body oc) (self w) t1)
        \/ (0 < retries_ (self w) /\
            w' = attempt env (spend (self w)) t1)).
Proof.
  intros HR HI Hstep.
  assert (Hperm : permitted (trace w) i = true).
  { unfold step in Hstep. destruct (permitted (trace w) i);
      [reflexivity|discriminate]. }
  destruct i as [| |h sc rb|h reason].
  - left. destruct (step_call_closed env R w HI Hperm) as [Hw Hstep'].
    rewrite Hstep' in Hstep. injection Hstep as <-. auto.
  - right. unfold step in Hstep. rewrite Hperm in Hstep.
    cbn [handler event_of] in Hstep. rewrite cancel_closed in Hstep.
    injection Hstep as <-.
    cbn [permitted] in Hperm. unfold disposed in Hperm.
    apply andb_prop in Hperm. destruct Hperm as [Hd Hdd].
    apply Nat.eqb_eq in Hd. apply negb_true_iff, negb_false_iff in Hdd.
    apply Nat.eqb_eq in Hdd.
    destruct w as [o t]. destruct HI as [_ _ Hp]. cbn [self trace] in *.
    destruct Hp as [Ht Ho|h0 sp Hrq Hsp Hout Hopen Hc' Hx' Hd' Hdd' Hall
                   |st b Hrq Hout Hopen Hc' Hx' Hdc Hd'
                   |Hrq Hout Hopen Hc' Hx' Hd' Hdd'];
      try congruence.
    + left. subst. auto.
    + right. left. exists h0, sp. split; [reflexivity|].
      split; [unfold InFlightAt; cbn [self trace]; tauto|].
      unfold cancel_request, cancel_span. rewrite Hrq, Hsp. reflexivity.
  - right. right. right. destruct w as [o t]. cbn [self trace] in *.
    destruct (step_onSuccess_closed env R o t h sc rb HI Hperm)
      as (sp & Hrq & Hsp & Hd & Hstep').
    rewrite Hstep' in Hstep. cbv zeta in Hstep.
    cbn [permitted] in Hperm.
    apply andb_prop in Hperm. destruct Hperm as [Hperm _].
    apply andb_prop in Hperm. destruct Hperm as [Hex _].
    destruct (permitted_in_flight env R o t h HI Hex)
      as (sp' & Hrq' & Hsp' & Hfacts).
    assert (sp' = sp) by congruence. subst sp'.
    exists h, sp, (Responded sc rb), HttpStatusCode, (TagStr (to_string sc)).
    split; [reflexivity|].
    split; [unfold InFlightAt; cbn [self trace]; tauto|].
    cbv zeta. cbn [self trace event_of outcome_body].
    destruct (sc =? Http_Code_OK).
    + injection Hstep as <-. left. exists Status_OK. auto.
    + destruct (retryable sc o) eqn:Hretry; injection Hstep as <-.
      * right. split; [|reflexivity]. apply retryable_spec in Hretry. tauto.
      * left. exists call_failed. auto.
  - right. right. right. destruct w as [o t]. cbn [self trace] in *.
    destruct (step_onFailure_closed env R o t h reason HI Hperm)
      as (sp & Hrq & Hsp & Hd & Hstep').
    rewrite Hstep' in Hstep. cbv zeta in Hstep.
    cbn [permitted] in Hperm.
    destruct (permitted_in_flight env R o t h HI Hperm)
      as (sp' & Hrq' & Hsp' & Hfacts).
    assert (sp' = sp) by congruence. subst sp'.
    exists h, sp, (Failed reason), Error, (TagStr (failure_text reason)).
    split; [reflexivity|].
    split; [unfold InFlightAt; cbn [self trace]; tauto|].
    cbv zeta. cbn [self trace event_of outcome_body].
    destruct (retryable 0 o) eqn:Hretry; injection Hstep as <-.
    + right. split; [|reflexivity]. apply retryable_spec in Hretry. tauto.
    + left. exists call_failed. auto.
Qed.

(** A property that holds when the instance is created and that every
    permitted step keeps holds in every reachable world. *)
Lemma reachable_invariant (env : Env) (R : Z) (Q : World -> Prop) :
  0 <= R < 2 ^ 32 ->
  Q (create R) ->
  (forall w w' i, Inv env R w -> Q w -> step env w i = Some w' -> Q w') ->
  forall inputs w, run env inputs (create R) = Some w -> Q w.
Proof.
  intros HR Hinit Hkeep.
  assert (Hgen : forall inputs w w',
            Inv env R w -> Q w -> run env inputs w = Some w' -> Q w').
  { induction inputs as [|i rest IH]; intros w w' HI HQ Hrun.
    - cbn in Hrun. injection Hrun as <-. exact HQ.
    - cbn [run] in Hrun. destruct (step env w i) as [w1|] eqn:Hstep;
        [|discriminate].
      apply (IH w1 w'); [eapply step_Inv; eassumption| |exact Hrun].
      eapply Hkeep; eassumption. }
  intros inputs w Hrun.
  apply (Hgen inputs (create R) w); [apply create_Inv; exact HR|exact Hinit|].
  exact Hrun.
Qed.

Lemma rev_seq_S (n : nat) : rev (seq 0 (S n)) = n :: rev (seq 0 n).
Proof. rewrite seq_S, rev_app_distr. reflexivity. Qed.

(** X1.  In every reachable world, the requests handed to the transport
    have the handles 0, 1, 2, ... in the order they were sent, and the
    request with handle [h] went to the configured cluster with the
    configured timeout and carried the message [prepareHeaders] builds from
    the token returned by fetch number [h] of [token_fn_], which was not
    empty: the token is fetched afresh for each request and no request
    leaves with an empty token. *)
Theorem every_request_well_formed (env : Env) (R : Z) (inputs : list Input)
    (w : World) :
  0 <= R < 2 ^ 32 ->
  run env inputs (create R) = Some w ->
  Forall (well_formed_request env) (sent (trace w)) /\
  map handle_of (sent (trace w)) = rev (seq 0 (count is_send (trace w))).
Proof.
  intros HR. revert inputs w.
  apply (reachable_invariant env R
           (fun w => Forall (well_formed_request env) (sent (trace w)) /\
                     map handle_of (sent (trace w))
                     = rev (seq 0 (count is_send (trace w)))) HR).
  - split; [constructor|reflexivity].
  - intros w w' i HI [Hgood Hhs] Hstep.
    destruct (step_shape env R w w' i HR HI Hstep)
      as [(_ & -> & ->)|[(_ & -> & ->)|[(h & sp & _ & Hfl & ->)
         |(h & sp & oc & k & v & -> & Hfl & Hcase)]]].
    + destruct (empty (token_fn_ env 0)) eqn:He.
      * rewrite attempt_empty_token by exact He.
        split; [constructor|reflexivity].
      * rewrite attempt_sends by exact He. tr_more.
        split; [|reflexivity].
        constructor; [|constructor]. repeat split. exact He.
    + split; [constructor|reflexivity].
    + tr_more. split; assumption.
    + cbv zeta in Hcase.
      set (t1 := EvFinishSpan sp :: EvSetTag sp k v
                 :: event_of (deliver h oc) :: trace w) in *.
      assert (Hs : sent t1 = sent (trace w))
        by (subst t1; destruct oc; reflexivity).
      assert (Hn : count is_send t1 = count is_send (trace w))
        by (subst t1; destruct oc; reflexivity).
      assert (Hk : count is_token t1 = count is_token (trace w))
        by (subst t1; destruct oc; reflexivity).
      clearbody t1.
      destruct Hcase as [(st & _ & ->)|(_ & ->)].
      * cbn [report trace sent count is_send is_deferred is_done].
        rewrite Hs, Hn. split; assumption.
      * destruct Hfl as (_ & _ & _ & _ & _ & _ & _ & _ & Hall).
        destruct (empty (token_fn_ env (count is_token t1))) eqn:He.
        -- rewrite (attempt_empty_token env _ t1 He).
           cbn [trace sent count is_send is_done is_token].
           rewrite Hs, Hn. split; assumption.
        -- rewrite (attempt_sends env _ t1 He).
           cbn [trace sent count is_send is_tag is_spawn is_token map
                handle_of fst].
           rewrite Hs, Hn, Hk in *. rewrite rev_seq_S, Hhs.
           split; [|reflexivity].
           constructor; [|exact Hgood].
           rewrite Hall. repeat split. exact He.
Qed.

Lemma every_request_well_formed_witness :
  let env := demo_env ["a"; "b"] in
  let inputs := [InCall; InOnFailure 0%nat Reset] in
  0 <= 1 < 2 ^ 32 /\
  run env inputs (create 1) = Some (world_after env 1 inputs) /\
  map handle_of (sent (trace (world_after env 1 inputs))) = [1; 0]%nat /\
  Forall (well_formed_request env) (sent (trace (world_after env 1 inputs))).
Proof.
  cbv zeta. split; [lia|]. split; [vm_compute; reflexivity|].
  destruct (every_request_well_formed (demo_env ["a"; "b"]) 1
              [InCall; InOnFailure 0%nat Reset]
              (world_after (demo_env ["a"; "b"]) 1
                 [InCall; InOnFailure 0%nat Reset])) as [Hgood Hhs].
  - lia.
  - vm_compute. reflexivity.
  - split; [|exact Hgood]. rewrite Hhs. vm_compute. reflexivity.
Defined.

(** ** Whole runs *)

Section Runs.

Variable env : Env.
Variable R : Z.
Hypothesis R_range : 0 <= R < 2 ^ 32.

Lemma Inv_in_flight (w : World) (h : Handle) :
  Inv env R w -> request_ (self w) = Some h ->
  exists sp, request_span_ (self w) = Some sp /\ InFlightAt w h sp.
Proof.
  intros [_ _ Hp] Hrq.
  destruct Hp as [Ht Ho|h0 sp Hrq' Hsp Hout Hopen Hc Hx Hd Hdd Hall
                 |st b Hrq'|Hrq']; try congruence.
  - rewrite Ho in Hrq. discriminate Hrq.
  - assert (h0 = h) by congruence. subst h0.
    exists sp. split; [exact Hsp|]. unfold InFlightAt. tauto.
Qed.

(** The step the transport's callback makes, for any outcome. *)
Lemma step_deliver (w : World) (h : Handle) (sp : SpanId) (oc : Outcome) :
  Inv env R w -> InFlightAt w h sp -> deliverable oc = true ->
  step env w (deliver h oc)
  = Some (let t1 := EvFinishSpan sp
                    :: EvSetTag sp (fst (outcome_tag oc))
                         (snd (outcome_tag oc))
                    :: event_of (deliver h oc) :: trace w in
          if is_ok oc then report Status_OK (outcome_body oc) (self w) t1
          else if retryable (outcome_status oc) (self w)
               then attempt env (spend (self w)) t1
               else report call_failed (outcome_body oc) (self w) t1).
Proof.
  intros HI (Hrq & Hsp & Hout & _) Hdel.
  destruct w as [o t]. cbn [self trace] in *.
  assert (Hex : existsb (Nat.eqb h) (outstanding t) = true).
  { rewrite Hout. cbn. rewrite Nat.eqb_refl. reflexivity. }
  destruct oc as [reason|sc rb]; cbn [deliver].
  - destruct (step_onFailure_closed env R o t h reason HI Hex)
      as (sp' & _ & Hsp' & _ & Hstep).
    assert (sp' = sp) by congruence. subst sp'. exact Hstep.
  - assert (Hperm : permitted t (InOnSuccess h sc rb) = true).
    { cbn [permitted]. rewrite Hex. cbn [deliverable] in Hdel.
      rewrite <- andb_assoc. exact Hdel. }
    destruct (step_onSuccess_closed env R o t h sc rb HI Hperm)
      as (sp' & _ & Hsp' & _ & Hstep).
    assert (sp' = sp) by congruence. subst sp'. exact Hstep.
Qed.

Lemma transient_facts (oc : Outcome) :
  transient oc = true ->
  deliverable oc = true /\ is_ok oc = false /\
  ~ (400 <= outcome_status oc < 500).
Proof.
  destruct oc as [reason|sc rb]; cbn.
  - intros _. repeat split; lia.
  - intros H. apply andb_prop in H. destruct H as [H Hband].
    apply andb_prop in H. destruct H as [Hrange Hok].
    apply negb_true_iff in Hok, Hband.
    repeat split; try assumption.
    apply andb_false_iff in Hband. rewrite Z.leb_gt, Z.ltb_ge in Hband. lia.
Qed.

Lemma silent_counts (h : Handle) (sp : SpanId) (k : TagKey) (v : TagValue)
    (oc : Outcome) (t : Trace) :
  let t1 := EvFinishSpan sp :: EvSetTag sp k v
            :: event_of (deliver h oc) :: t in
  count is_token t1 = count is_token t /\
  count is_send t1 = count is_send t /\
  count is_spawn t1 = count is_spawn t /\
  count is_done t1 = count is_done t /\
  count is_deferred t1 = count is_deferred t /\
  done_calls t1 = done_calls t.
Proof. destruct oc; repeat split. Qed.

(** One more retry: a transient outcome with budget left and a token for
    the next attempt. *)
Lemma transient_step (w : World) (j : nat) (oc : Outcome) :
  Inv env R w -> InFlightAt w j j ->
  count is_send (trace w) = S j ->
  transient oc = true -> 0 < retries_ (self w) ->
  empty (token_fn_ env (S j)) = false ->
  exists w',
    step env w (deliver j oc) = Some w' /\
    InFlightAt w' (S j) (S j) /\
    retries_ (self w') = retries_ (self w) - 1 /\
    count is_send (trace w') = S (S j).
Proof.
  intros HI Hfl Hsends Htr Hpos Htok.
  destruct (transient_facts oc Htr) as (Hdel & Hok & Hband).
  pose proof (step_deliver w j j oc HI Hfl Hdel) as Hstep.
  cbv zeta in Hstep. rewrite Hok in Hstep.
  assert (Hretry : retryable (outcome_status oc) (self w) = true)
    by (apply retryable_spec; tauto).
  rewrite Hretry in Hstep.
  destruct (silent_counts j j (fst (outcome_tag oc)) (snd (outcome_tag oc))
              oc (trace w)) as (Hk & Hn & Hs & _).
  set (t1 := EvFinishSpan j :: _) in *. clearbody t1.
  pose proof Hfl as (_ & _ & _ & _ & _ & _ & _ & _ & Hall).
  pose proof HI as [HS _ _].
  pose proof (steady_spawns _ _ _ _ HS) as Hspawn.
  pose proof (steady_budget _ _ _ _ HS) as Hrange.
  assert (He : empty (token_fn_ env (count is_token t1)) = false)
    by (rewrite Hk, <- Hall, Hsends; exact Htok).
  rewrite (attempt_sends env _ t1 He) in Hstep.
  eexists. split; [exact Hstep|].
  pose proof (step_Inv env R R_range w _ _ HI Hstep) as HI'.
  destruct (Inv_in_flight _ (count is_send t1) HI' eq_refl)
    as (sp' & Hsp' & Hfl').
  cbn [self request_span_] in Hsp'. injection Hsp' as <-.
  rewrite Hn, Hs, Hspawn, Hsends in *.
  split; [exact Hfl'|]. split.
  - cbn [self retries_ spend set_request_ set_retries_].
    apply wrap32_small. lia.
  - cbn [trace count is_send is_tag is_spawn is_token]. rewrite Hn.
    reflexivity.
Qed.

Lemma deliveries_app (h : Handle) (a b : list Outcome) :
  deliveries h (a ++ b)
  = deliveries h a ++ deliveries (h + List.length a)%nat b.
Proof.
  revert h. induction a as [|oc a IH]; intros h; cbn [app deliveries].
  - cbn. rewrite Nat.add_0_r. reflexivity.
  - rewrite IH. cbn [List.length app]. rewrite Nat.add_succ_r. reflexivity.
Qed.

(** After [call] and [j] transient outcomes, with budget and tokens for
    them, the call is on attempt [j + 1]. *)
Lemma transient_run (ocs : list Outcome) :
  forallb transient ocs = true ->
  Z.of_nat (List.length ocs) <= R ->
  (forall k, (k <= List.length ocs)%nat -> empty (token_fn_ env k) = false) ->
  exists w,
    run env (InCall :: deliveries 0%nat ocs) (create R) = Some w /\
    InFlightAt w (List.length ocs) (List.length ocs) /\
    retries_ (self w) = R - Z.of_nat (List.length ocs) /\
    count is_send (trace w) = S (List.length ocs).
Proof.
  induction ocs as [|oc ocs IH] using rev_ind; intros Htr Hlen Htok.
  - cbn [deliveries List.length run].
    pose proof (create_Inv env R R_range) as HI0.
    destruct (step_call_closed env R (create R) HI0 eq_refl) as [_ Hstep].
    rewrite Hstep.
    assert (He : empty (token_fn_ env (count is_token [EvCall])) = false)
      by (apply Htok; cbn; lia).
    rewrite (attempt_sends env _ _ He) in *.
    eexists. split; [reflexivity|].
    pose proof (step_Inv env R R_range _ _ _ HI0 Hstep) as HI'.
    destruct (Inv_in_flight _ O HI' eq_refl) as (sp' & Hsp' & Hfl').
    cbn [self request_span_ count is_spawn] in Hsp'. injection Hsp' as <-.
    split; [exact Hfl'|]. split; [cbn; lia|reflexivity].
  - rewrite forallb_app in Htr. apply andb_prop in Htr.
    destruct Htr as [Htr Hoc]. cbn [forallb] in Hoc.
    rewrite andb_true_r in Hoc.
    rewrite length_app in *. cbn [List.length] in *.
    destruct IH as (w & Hrun & Hfl & Hret & Hsends);
      [exact Htr|lia|intros k Hk; apply Htok; lia|].
    rewrite deliveries_app. cbn [deliveries Nat.add].
    change (InCall :: deliveries 0%nat ocs ++ [deliver (List.length ocs) oc])
      with ((InCall :: deliveries 0%nat ocs) ++ [deliver (List.length ocs) oc]).
    rewrite run_app, Hrun. cbn [run].
    pose proof (reachable_Inv env R R_range _ _ Hrun) as HI.
    destruct (transient_step w (List.length ocs) oc HI Hfl Hsends Hoc)
      as (w' & Hstep & Hfl' & Hret' & Hsends').
    + lia.
    + apply Htok. lia.
    + rewrite Hstep. exists w'. split; [reflexivity|].
      replace (List.length ocs + 1)%nat with (S (List.length ocs)) by lia.
      split; [exact Hfl'|]. split; [lia|exact Hsends'].
Qed.

(** A callback that ends the call: a 200, or an outcome [attemptRetry]
    turns away. *)
Lemma report_step (w : World) (h : Handle) (sp : SpanId) (oc : Outcome) :
  Inv env R w -> InFlightAt w h sp -> deliverable oc = true ->
  is_ok oc = true \/ retryable (outcome_status oc) (self w) = false ->
  exists w',
    step env w (deliver h oc) = Some w' /\
    done_calls (trace w')
    = [(if is_ok oc then Status_OK else call_failed, outcome_body oc)] /\
    count is_send (trace w') = count is_send (trace w) /\
    count is_deferred (trace w') = 1%nat /\
    retries_ (self w') = retries_ (self w) /\
    request_ (self w') = None.
Proof.
  intros HI Hfl Hdel Hend.
  pose proof (step_deliver w h sp oc HI Hfl Hdel) as Hstep.
  cbv zeta in Hstep.
  destruct (silent_counts h sp (fst (outcome_tag oc)) (snd (outcome_tag oc))
              oc (trace w)) as (_ & Hn & _ & _ & Hdd & Hdc).
  set (t1 := EvFinishSpan sp :: _) in *. clearbody t1.
  destruct Hfl as (_ & _ & _ & _ & _ & _ & Hd & Hdd0 & _).
  assert (Hw : exists st, st = (if is_ok oc then Status_OK else call_failed)
                 /\ step env w (deliver h oc)
                    = Some (report st (outcome_body oc) (self w) t1)).
  { destruct (is_ok oc).
    - eexists. split; [reflexivity|exact Hstep].
    - destruct Hend as [Hend|Hend]; [discriminate|].
      rewrite Hend in Hstep. eexists. split; [reflexivity|exact Hstep]. }
  destruct Hw as (st & -> & Hstep').
  eexists. split; [exact Hstep'|].
  cbn [report trace self done_calls count is_send is_deferred is_done
       retries_ request_ set_request_].
  rewrite Hdc, (done_calls_nil _ Hd), Hn, Hdd, Hdd0. repeat split.
Qed.

End Runs.

(** X2.  After [call] and any [j <= R] transient outcomes (failures, or
    responses whose status is neither 200 nor in [400, 500)), with a
    non-empty token at each fetch, the call is on its attempt [j + 1]:
    request [j] and span [j] are in flight, [j + 1] requests were sent,
    the budget is [R - j], nothing was reported, and the spans carry the
    names of attempts 1 to [j + 1]. *)
Theorem retries_proceed (env : Env) (R : Z) (ocs : list Outcome) :
  0 <= R < 2 ^ 32 ->
  forallb transient ocs = true ->
  Z.of_nat (List.length ocs) <= R ->
  (forall k, (k <= List.length ocs)%nat -> empty (token_fn_ env k) = false) ->
  exists w : World,
    run env (InCall :: deliveries 0%nat ocs) (create R) = Some w /\
    request_ (self w) = Some (List.length ocs) /\
    request_span_ (self w) = Some (List.length ocs) /\
    outstanding (trace w) = [List.length ocs] /\
    retries_ (self w) = R - Z.of_nat (List.length ocs) /\
    count is_send (trace w) = S (List.length ocs) /\
    done_calls (trace w) = [] /\
    span_names (trace w)
    = names_upto (trace_operation_name_ env) (S (List.length ocs)).
Proof.
  intros HR Htr Hlen Htok.
  destruct (transient_run env R HR ocs Htr Hlen Htok)
    as (w & Hrun & Hfl & Hret & Hsends).
  exists w. split; [exact Hrun|].
  pose proof (reachable_Inv env R HR _ _ Hrun) as [HS _ _].
  destruct Hfl as (Hrq & Hsp & Hout & _ & _ & _ & Hd & _).
  repeat split; try assumption.
  - apply done_calls_nil. exact Hd.
  - rewrite (steady_names _ _ _ _ HS), (steady_spawns _ _ _ _ HS), Hsends.
    reflexivity.
Qed.

Lemma retries_proceed_witness :
  exists w : World,
    run (demo_env ["a"; "b"; "c"])
        (InCall :: deliveries 0%nat [Failed Reset; Responded 503 None])
        (create 2) = Some w /\
    request_ (self w) = Some 2%nat /\
    retries_ (self w) = 0.
Proof.
  destruct (retries_proceed (demo_env ["a"; "b"; "c"]) 2
              [Failed Reset; Responded 503 None])
    as (w & Hrun & Hrq & _ & _ & Hret & _).
  - lia.
  - vm_compute. reflexivity.
  - cbn. lia.
  - intros k Hk. destruct k as [|[|[|k]]]; try reflexivity.
    cbn in Hk. lia.
  - exists w. split; [exact Hrun|]. split; [exact Hrq|exact Hret].
Defined.

(** X3.  A call whose every attempt meets a transient outcome makes
    exactly [R + 1] attempts: after [R] retried outcomes and one more, the
    budget is zero, [R + 1] requests were sent, [on_done_] got the
    call-failed status with the body of the last outcome, the request
    pointer is null and the deletion was deferred once. *)
Theorem exhausted_run (env : Env) (R : Z) (ocs : list Outcome)
    (oc : Outcome) :
  0 <= R < 2 ^ 32 ->
  forallb transient ocs = true -> transient oc = true ->
  Z.of_nat (List.length ocs) = R ->
  (forall k, (k <= List.length ocs)%nat -> empty (token_fn_ env k) = false) ->
  exists w : World,
    run env (InCall :: deliveries 0%nat (ocs ++ [oc])) (create R) = Some w /\
    Z.of_nat (count is_send (trace w)) = R + 1 /\
    done_calls (trace w) = [(call_failed, outcome_body oc)] /\
    retries_ (self w) = 0 /\
    request_ (self w) = None /\
    count is_deferred (trace w) = 1%nat.
Proof.
  intros HR Htr Hoc Hlen Htok.
  destruct (transient_run env R HR ocs Htr) as (w & Hrun & Hfl & Hret & Hsends);
    [lia|exact Htok|].
  pose proof (reachable_Inv env R HR _ _ Hrun) as HI.
  destruct (transient_facts oc Hoc) as (Hdel & Hok & _).
  destruct (report_step env R w _ _ oc HI Hfl Hdel)
    as (w' & Hstep & Hdc & Hn & Hdd & Hret' & Hrq).
  { right. unfold retryable. rewrite Hret.
    replace (R - Z.of_nat (List.length ocs)) with 0 by lia.
    apply andb_false_r. }
  exists w'. rewrite deliveries_app. cbn [deliveries Nat.add].
  change (InCall :: deliveries 0%nat ocs ++ [deliver (List.length ocs) oc])
    with ((InCall :: deliveries 0%nat ocs) ++ [deliver (List.length ocs) oc]).
  rewrite run_app, Hrun. cbn [run]. rewrite Hstep.
  rewrite Hok in Hdc.
  repeat split; try assumption; lia.
Qed.

Lemma exhausted_run_witness :
  exists w : World,
    run (demo_env ["a"; "b"])
        (InCall :: deliveries 0%nat ([Failed Reset] ++ [Responded 503 (Some "x")]))
        (create 1) = Some w /\
    Z.of_nat (count is_send (trace w)) = 1 + 1 /\
    done_calls (trace w) = [(call_failed, "x")].
Proof.
  destruct (exhausted_run (demo_env ["a"; "b"]) 1 [Failed Reset]
              (Responded 503 (Some "x")))
    as (w & Hrun & Hn & Hdc & _).
  - lia.
  - reflexivity.
  - reflexivity.
  - reflexivity.
  - intros k Hk. destruct k as [|[|k]]; try reflexivity. cbn in Hk. lia.
  - exists w. split; [exact Hrun|]. split; [exact Hn|exact Hdc].
Defined.

(** X4.  A 200 or a status in [400, 500) ends the call at once, whatever
    budget is left: after [j <= R] retried outcomes, such a response makes
    [on_done_] fire with [Status::OK] (for 200) or the call-failed status,
    and the body of that response; [j + 1] requests were sent in all, the
    budget stays at [R - j], and the deletion was deferred once. *)
Theorem settled_run (env : Env) (R : Z) (ocs : list Outcome) (sc : Z)
    (rb : option string) :
  0 <= R < 2 ^ 32 ->
  forallb transient ocs = true ->
  Z.of_nat (List.length ocs) <= R ->
  (forall k, (k <= List.length ocs)%nat -> empty (token_fn_ env k) = false) ->
  sc = 200 \/ 400 <= sc < 500 ->
  exists w : World,
    run env (InCall :: deliveries 0%nat (ocs ++ [Responded sc rb]))
        (create R) = Some w /\
    done_calls (trace w)
    = [(if sc =? 200 then Status_OK else call_failed, body_of rb)] /\
    count is_send (trace w) = S (List.length ocs) /\
    retries_ (self w) = R - Z.of_nat (List.length ocs) /\
    request_ (self w) = None /\
    count is_deferred (trace w) = 1%nat.
Proof.
  intros HR Htr Hlen Htok Hsc.
  destruct (transient_run env R HR ocs Htr Hlen Htok)
    as (w & Hrun & Hfl & Hret & Hsends).
  pose proof (reachable_Inv env R HR _ _ Hrun) as HI.
  destruct (report_step env R w _ _ (Responded sc rb) HI Hfl)
    as (w' & Hstep & Hdc & Hn & Hdd & Hret' & Hrq).
  { cbn [deliverable]. apply andb_true_iff.
    rewrite Z.leb_le, Z.ltb_lt. lia. }
  { cbn [is_ok outcome_status]. unfold Http_Code_OK.
    destruct Hsc as [->|Hband]; [left; reflexivity|right].
    unfold retryable.
    replace ((400 <=? sc) && (sc <? 500)) with true; [reflexivity|].
    symmetry. apply andb_true_iff. rewrite Z.leb_le, Z.ltb_lt. exact Hband. }
  exists w'. rewrite deliveries_app. cbn [deliveries Nat.add].
  change (InCall :: deliveries 0%nat ocs
            ++ [deliver (List.length ocs) (Responded sc rb)])
    with ((InCall :: deliveries 0%nat ocs)
            ++ [deliver (List.length ocs) (Responded sc rb)]).
  rewrite run_app, Hrun. cbn [run]. rewrite Hstep.
  cbn [is_ok outcome_body] in Hdc. unfold Http_Code_OK in Hdc.
  repeat split; try assumption; congruence.
Qed.

Lemma settled_run_witness :
  exists w : World,
    run (demo_env ["a"; "b"])
        (InCall :: deliveries 0%nat
                     ([Responded 500 None] ++ [Responded 403 (Some "no")]))
        (create 7) = Some w /\
    done_calls (trace w) = [(call_failed, "no")] /\
    retries_ (self w) = 7 - 1.
Proof.
  destruct (settled_run (demo_env ["a"; "b"]) 7 [Responded 500 None]
              403 (Some "no"))
    as (w & Hrun & Hdc & _ & Hret & _).
  - lia.
  - reflexivity.
  - cbn. lia.
  - intros k Hk. destruct k as [|[|k]]; try reflexivity. cbn in Hk. lia.
  - right. lia.
  - exists w. split; [exact Hrun|]. split; [exact Hdc|exact Hret].
Defined.

(** X5.  [cancel] during attempt [j + 1] (after [call] and [j <= R] retried
    outcomes) cancels request [j], the one of the latest attempt, tags
    span [j] as canceled and finishes it, and defers the deletion; the
    transport is left holding nothing, [j + 1] requests were sent, and
    [on_done_] was never called. *)
Theorem cancelled_run (env : Env) (R : Z) (ocs : list Outcome) :
  0 <= R < 2 ^ 32 ->
  forallb transient ocs = true ->
  Z.of_nat (List.length ocs) <= R ->
  (forall k, (k <= List.length ocs)%nat -> empty (token_fn_ env k) = false) ->
  exists w w' : World,
    run env (InCall :: deliveries 0%nat ocs) (create R) = Some w /\
    run env ((InCall :: deliveries 0%nat ocs) ++ [InCancel]) (create R)
    = Some w' /\
    trace w' = EvDeferredDelete
               :: EvRequestCancel (List.length ocs)
               :: EvFinishSpan (List.length ocs)
               :: EvSetTag (List.length ocs) Error Canceled
               :: EvCancel :: trace w /\
    request_ (self w') = None /\
    outstanding (trace w') = [] /\
    open_spans (trace w') = [] /\
    count is_send (trace w') = S (List.length ocs) /\
    done_calls (trace w') = [].
Proof.
  intros HR Htr Hlen Htok.
  destruct (transient_run env R HR ocs Htr Hlen Htok)
    as (w & Hrun & Hfl & Hret & Hsends).
  pose proof (reachable_Inv env R HR _ _ Hrun) as HI.
  destruct Hfl as (Hrq & Hsp & Hout & Hopen & Hc & Hx & Hd & Hdd & Hall).
  assert (Hperm : permitted (trace w) InCancel = true).
  { cbn [permitted]. unfold disposed. rewrite Hd, Hdd. reflexivity. }
  exists w.
  eexists. split; [exact Hrun|]. rewrite run_app, Hrun. cbn [run].
  unfold step. rewrite Hperm. cbn [handler event_of].
  rewrite cancel_closed. unfold cancel_request, cancel_span.
  rewrite Hrq, Hsp. cbn [self trace app].
  split; [reflexivity|].
  cbn [trace self request_ set_request_ outstanding open_spans count
       is_send done_calls].
  rewrite Hout, Hopen, !remove_singleton, Hsends, (done_calls_nil _ Hd).
  repeat split.
Qed.

Lemma cancelled_run_witness :
  exists w' : World,
    run (demo_env ["a"; "b"])
        ((InCall :: deliveries 0%nat [Failed OtherReason]) ++ [InCancel])
        (create 3) = Some w' /\
    count is_request_cancel (trace w') = 1%nat /\
    done_calls (trace w') = [].
Proof.
  destruct (cancelled_run (demo_env ["a"; "b"]) 3 [Failed OtherReason])
    as (w & w' & Hrun & Hrun' & Htr & _ & _ & _ & _ & Hdc).
  - lia.
  - reflexivity.
  - cbn. lia.
  - intros k Hk. destruct k as [|[|k]]; try reflexivity. cbn in Hk. lia.
  - exists w'. split; [exact Hrun'|]. split; [|exact Hdc].
    rewrite Htr. cbn [count is_request_cancel].
    vm_compute in Hrun. injection Hrun as <-. reflexivity.
Defined.

(** X6.  When the token function returns the empty string for a retry
    (after [call] and [j < R] retried outcomes, one more transient outcome,
    fetch [j + 1] empty), the retry is paid for and counted but nothing is
    sent: the budget drops to [R - j - 1], the token was fetched [j + 2]
    times, only [j + 1] requests were sent, [on_done_] got the
    missing-token status with an empty body, and no deletion was
    deferred. *)
Theorem token_lost_run (env : Env) (R : Z) (ocs : list Outcome)
    (oc : Outcome) :
  0 <= R < 2 ^ 32 ->
  forallb transient ocs = true -> transient oc = true ->
  Z.of_nat (List.length ocs) < R ->
  (forall k, (k <= List.length ocs)%nat -> empty (token_fn_ env k) = false) ->
  empty (token_fn_ env (S (List.length ocs))) = true ->
  exists w : World,
    run env (InCall :: deliveries 0%nat (ocs ++ [oc])) (create R) = Some w /\
    done_calls (trace w) = [(missing_token, "")] /\
    retries_ (self w) = R - Z.of_nat (List.length ocs) - 1 /\
    count is_token (trace w) = S (S (List.length ocs)) /\
    count is_send (trace w) = S (List.length ocs) /\
    request_ (self w) = None /\
    count is_deferred (trace w) = 0%nat.
Proof.
  intros HR Htr Hoc Hlen Htok Hlost.
  destruct (transient_run env R HR ocs Htr) as (w & Hrun & Hfl & Hret & Hsends);
    [lia|exact Htok|].
  pose proof (reachable_Inv env R HR _ _ Hrun) as HI.
  destruct (transient_facts oc Hoc) as (Hdel & Hok & Hband).
  pose proof (step_deliver env R w _ _ oc HI Hfl Hdel) as Hstep.
  cbv zeta in Hstep. rewrite Hok in Hstep.
  assert (Hretry : retryable (outcome_status oc) (self w) = true)
    by (apply retryable_spec; split; [exact Hband|lia]).
  rewrite Hretry in Hstep.
  destruct (silent_counts (List.length ocs) (List.length ocs)
              (fst (outcome_tag oc)) (snd (outcome_tag oc)) oc (trace w))
    as (Hk & Hn & _ & Hd1 & Hdd1 & Hdc1).
  set (t1 := EvFinishSpan (List.length ocs) :: _) in *. clearbody t1.
  destruct Hfl as (_ & _ & _ & _ & _ & _ & Hd & Hdd & Hall).
  assert (He : empty (token_fn_ env (count is_token t1)) = true)
    by (rewrite Hk, <- Hall, Hsends; exact Hlost).
  rewrite (attempt_empty_token env _ t1 He) in Hstep.
  eexists. rewrite deliveries_app. cbn [deliveries Nat.add].
  change (InCall :: deliveries 0%nat ocs ++ [deliver (List.length ocs) oc])
    with ((InCall :: deliveries 0%nat ocs) ++ [deliver (List.length ocs) oc]).
  rewrite run_app, Hrun. cbn [run]. rewrite Hstep.
  split; [reflexivity|].
  cbn [trace self done_calls count is_token is_send is_deferred is_done
       retries_ request_ spend set_request_ set_retries_ set_request_count_].
  rewrite Hdc1, (done_calls_nil _ Hd), Hk, <- Hall, Hn, Hsends, Hdd1, Hdd.
  repeat split.
  pose proof HI as [HS _ _]. pose proof (steady_budget _ _ _ _ HS).
  rewrite wrap32_small by lia. lia.
Qed.

Lemma token_lost_run_witness :
  exists w : World,
    run (demo_env ["a"])
        (InCall :: deliveries 0%nat ([] ++ [Failed Reset])) (create 4)
    = Some w /\
    done_calls (trace w) = [(missing_token, "")] /\
    retries_ (self w) = 4 - 0 - 1.
Proof.
  destruct (token_lost_run (demo_env ["a"]) 4 [] (Failed Reset))
    as (w & Hrun & Hdc & Hret & _).
  - lia.
  - reflexivity.
  - reflexivity.
  - cbn. lia.
  - intros k Hk. destruct k as [|k]; try reflexivity. cbn in Hk. lia.
  - reflexivity.
  - exists w. split; [exact Hrun|]. split; [exact Hdc|exact Hret].
Defined.

(** ** Spans, attempts and deletion over a whole call *)

(** X7.  Spans are never leaked and never finished twice: in every
    reachable world each span spawned was either finished exactly once or
    is the one span still open, a span received four tags when it was
    spawned and one more when it was finished, and once the request
    pointer is null every span spawned has been finished. *)
Theorem spans_accounted (env : Env) (R : Z) (inputs : list Input)
    (w : World) :
  0 <= R < 2 ^ 32 ->
  run env inputs (create R) = Some w ->
  (count is_finish (trace w) + List.length (open_spans (trace w))
   = count is_spawn (trace w))%nat /\
  (count is_tag (trace w)
   = 4 * count is_spawn (trace w) + count is_finish (trace w))%nat /\
  (List.length (open_spans (trace w)) <= 1)%nat /\
  (request_ (self w) = None ->
   count is_finish (trace w) = count is_spawn (trace w)).
Proof.
  intros HR Hrun.
  assert (HQ : (count is_finish (trace w)
                + List.length (open_spans (trace w))
                = count is_spawn (trace w))%nat /\
               (count is_tag (trace w)
                = 4 * count is_spawn (trace w)
                  + count is_finish (trace w))%nat).
  { revert inputs w Hrun.
    apply (reachable_invariant env R
             (fun w => (count is_finish (trace w)
                        + List.length (open_spans (trace w))
                        = count is_spawn (trace w))%nat /\
                       (count is_tag (trace w)
                        = 4 * count is_spawn (trace w)
                          + count is_finish (trace w))%nat) HR).
    - split; reflexivity.
    - intros w0 w' i HI [Hopen Htags] Hstep.
      destruct (step_shape env R w0 w' i HR HI Hstep)
        as [(_ & -> & ->)|[(_ & -> & ->)|[(h & sp & _ & Hfl & ->)
           |(h & sp & oc & k & v & -> & Hfl & Hcase)]]].
      + destruct (empty (token_fn_ env 0)) eqn:He.
        * rewrite attempt_empty_token by exact He. split; reflexivity.
        * rewrite attempt_sends by exact He. split; reflexivity.
      + split; reflexivity.
      + destruct Hfl as (_ & _ & _ & Hop & _).
        tr_more. rewrite Hop in *. rewrite remove_singleton.
        cbn [List.length] in *. lia.
      + cbv zeta in Hcase.
        destruct Hfl as (_ & _ & _ & Hop & _).
        set (t1 := EvFinishSpan sp :: EvSetTag sp k v
                   :: event_of (deliver h oc) :: trace w0) in *.
        assert (H1 : open_spans t1 = []).
        { subst t1. destruct oc; tr_more; rewrite Hop;
            apply remove_singleton. }
        assert (H2 : count is_finish t1 = S (count is_finish (trace w0)))
          by (subst t1; destruct oc; reflexivity).
        assert (H3 : count is_spawn t1 = count is_spawn (trace w0))
          by (subst t1; destruct oc; reflexivity).
        assert (H4 : count is_tag t1 = S (count is_tag (trace w0)))
          by (subst t1; destruct oc; reflexivity).
        clearbody t1. rewrite Hop in Hopen. cbn [List.length] in Hopen.
        destruct Hcase as [(st & _ & ->)|(_ & ->)].
        * tr_more. rewrite H1, H2, H3, H4. cbn [List.length]. lia.
        * destruct (empty (token_fn_ env (count is_token t1))) eqn:He.
          -- rewrite (attempt_empty_token env _ t1 He). tr_more.
             rewrite H1, H2, H3, H4. cbn [List.length]. lia.
          -- rewrite (attempt_sends env _ t1 He). tr_more.
             rewrite H1, H2, H3, H4. cbn [List.length]. lia. }
  destruct HQ as [Hopen Htags].
  pose proof (reachable_Inv env R HR inputs w Hrun) as [_ _ Hp].
  assert (Hrest : request_ (self w) = None -> open_spans (trace w) = []).
  { intros Hnone.
    destruct Hp as [Ht _|h sp Hrq|st b _ _ Hop|_ _ Hop]; try assumption.
    - rewrite Ht. reflexivity.
    - congruence. }
  repeat split; try assumption.
  - destruct Hp as [Ht _|h sp _ _ _ Hop|st b _ _ Hop|_ _ Hop];
      rewrite ?Ht, ?Hop; cbn; lia.
  - intros Hnone. rewrite (Hrest Hnone) in Hopen. cbn in Hopen. lia.
Qed.

Lemma spans_accounted_witness :
  let env := demo_env ["a"; "b"] in
  let inputs := [InCall; InOnFailure 0%nat Reset;
                 InOnSuccess 1%nat 200 None] in
  run env inputs (create 1) = Some (world_after env 1 inputs) /\
  count is_finish (trace (world_after env 1 inputs)) = 2%nat /\
  count is_tag (trace (world_after env 1 inputs)) = 10%nat.
Proof.
  cbv zeta. split; [vm_compute; reflexivity|].
  destruct (spans_accounted (demo_env ["a"; "b"]) 1
              [InCall; InOnFailure 0%nat Reset; InOnSuccess 1%nat 200 None]
              (world_after (demo_env ["a"; "b"]) 1
                 [InCall; InOnFailure 0%nat Reset;
                  InOnSuccess 1%nat 200 None]))
    as (_ & Htags & _ & Hfin).
  - lia.
  - vm_compute. reflexivity.
  - split.
    + rewrite Hfin; vm_compute; reflexivity.
    + rewrite Htags. vm_compute. reflexivity.
Defined.

(** X8.  The instance is handed to the dispatcher for deletion at most
    once, and when it has been, its request pointer is null, the transport
    holds no request that could call back into it, and no further step of
    the call exists. *)
Theorem deleted_at_most_once (env : Env) (R : Z) (inputs : list Input)
    (w : World) :
  0 <= R < 2 ^ 32 ->
  run env inputs (create R) = Some w ->
  (count is_deferred (trace w) <= 1)%nat /\
  (disposed (trace w) = true ->
   request_ (self w) = None /\ outstanding (trace w) = [] /\
   terminated (trace w) = true /\
   forall i : Input, step env w i = None).
Proof.
  intros HR Hrun.
  pose proof (reachable_Inv env R HR inputs w Hrun) as HI.
  pose proof HI as [_ _ Hp].
  assert (Hstop : terminated (trace w) = true ->
                  forall i, step env w i = None).
  { intros Hterm i. unfold step.
    rewrite (terminated_no_input env R w i HI Hterm). reflexivity. }
  unfold disposed, terminated in *.
  destruct Hp as [Ht Ho|h sp _ _ _ _ _ _ _ Hdd|st b Hrq Hout _ _ _ _ Hd Hdd
                 |Hrq Hout _ _ Hx _ Hdd].
  - rewrite Ht. cbn. split; [lia|discriminate].
  - rewrite Hdd. cbn. split; [lia|discriminate].
  - split; [rewrite Hdd; destruct (is_missing_token st); lia|].
    intros _. rewrite Hd in *. cbn in *. auto.
  - split; [lia|]. intros _. rewrite Hx in *.
    rewrite Nat.add_succ_r in *. cbn in *. auto.
Qed.

Lemma deleted_at_most_once_witness :
  let env := demo_env ["a"] in
  let inputs := [InCall; InOnSuccess 0%nat 200 (Some "ok")] in
  run env inputs (create 0) = Some (world_after env 0 inputs) /\
  (count is_deferred (trace (world_after env 0 inputs)) <= 1)%nat.
Proof.
  cbv zeta. split; [vm_compute; reflexivity|].
  apply (deleted_at_most_once (demo_env ["a"]) 0
           [InCall; InOnSuccess 0%nat 200 (Some "ok")]).
  - lia.
  - vm_compute. reflexivity.
Defined.

(** X9.  Attempts, requests and budget add up: in every reachable world
    the budget left is the configured maximum minus the retries made
    (attempts after the first), every request has its span, and the token
    was fetched once per request, or once more when the last attempt
    found the token empty and reported that instead of sending. *)
Theorem attempts_accounted (env : Env) (R : Z) (inputs : list Input)
    (w : World) :
  0 <= R < 2 ^ 32 ->
  run env inputs (create R) = Some w ->
  Z.of_nat (count is_token (trace w)) + retries_ (self w)
  = R + Z.of_nat (count is_call (trace w)) /\
  count is_spawn (trace w) = count is_send (trace w) /\
  (count is_token (trace w) = count is_send (trace w) \/
   (count is_token (trace w) = S (count is_send (trace w)) /\
    done_calls (trace w) = [(missing_token, "")])).
Proof.
  intros HR Hrun.
  pose proof (reachable_Inv env R HR inputs w Hrun) as [HS Hb _].
  split; [exact Hb|]. split; [exact (steady_spawns _ _ _ _ HS)|].
  revert inputs w Hrun HS Hb.
  assert (HQ : forall inputs w, run env inputs (create R) = Some w ->
            count is_token (trace w) = count is_send (trace w) \/
            (count is_token (trace w) = S (count is_send (trace w)) /\
             done_calls (trace w) = [(missing_token, "")])).
  { apply (reachable_invariant env R
             (fun w => count is_token (trace w) = count is_send (trace w) \/
                       (count is_token (trace w)
                        = S (count is_send (trace w)) /\
                        done_calls (trace w) = [(missing_token, "")])) HR).
    - left. reflexivity.
    - intros w0 w' i HI _ Hstep.
      destruct (step_shape env R w0 w' i HR HI Hstep)
        as [(_ & -> & ->)|[(_ & -> & ->)|[(h & sp & _ & Hfl & ->)
           |(h & sp & oc & k & v & -> & Hfl & Hcase)]]].
      + destruct (empty (token_fn_ env 0)) eqn:He.
        * rewrite attempt_empty_token by exact He. right. split; reflexivity.
        * rewrite attempt_sends by exact He. left. reflexivity.
      + left. reflexivity.
      + destruct Hfl as (_ & _ & _ & _ & _ & _ & _ & _ & Hall).
        left. tr_more. congruence.
      + cbv zeta in Hcase.
        destruct Hfl as (_ & _ & _ & _ & _ & _ & Hd & _ & Hall).
        destruct (silent_counts h sp k v oc (trace w0))
          as (Hk & Hn & _ & _ & _ & Hdc).
        set (t1 := EvFinishSpan sp :: _) in *. clearbody t1.
        destruct Hcase as [(st & _ & ->)|(_ & ->)].
        * left. tr_more. congruence.
        * destruct (empty (token_fn_ env (count is_token t1))) eqn:He.
          -- rewrite (attempt_empty_token env _ t1 He). right. tr_more.
             rewrite Hdc, (done_calls_nil _ Hd). split; congruence.
          -- rewrite (attempt_sends env _ t1 He). left. tr_more.
             congruence. }
  intros inputs w Hrun _ _. exact (HQ inputs w Hrun).
Qed.

Lemma attempts_accounted_witness :
  let env := demo_env ["a"] in
  let inputs := [InCall; InOnFailure 0%nat Reset] in
  run env inputs (create 2) = Some (world_after env 2 inputs) /\
  Z.of_nat (count is_token (trace (world_after env 2 inputs)))
  + retries_ (self (world_after env 2 inputs))
  = 2 + Z.of_nat (count is_call (trace (world_after env 2 inputs))).
Proof.
  cbv zeta. split; [vm_compute; reflexivity|].
  apply (attempts_accounted (demo_env ["a"]) 2
           [InCall; InOnFailure 0%nat Reset]).
  - lia.
  - vm_compute. reflexivity.
Defined.

Lemma onFailure_null_span (env : Env) (reason : FailureReason)
    (o : HttpCallImpl) (t : Trace) :
  request_span_ o = None -> onFailure env reason (mkWorld o t) = None.
Proof.
  intros Hsp. destruct o as [r rc rq rs]. cbn in Hsp. subst rs.
  destruct reason; reflexivity.
Qed.

(** X10.  [onSuccess] and [onFailure] dereference [request_span_] without
    a test, which is undefined on a null span; but in every reachable
    world every input the contract permits finds the handler defined, and a
    callback finds the span set. *)
Theorem handlers_find_their_span (env : Env) (R : Z) (inputs : list Input)
    (w : World) (i : Input) :
  0 <= R < 2 ^ 32 ->
  run env inputs (create R) = Some w ->
  permitted (trace w) i = true ->
  (exists w' : World, step env w i = Some w') /\
  (forall h oc, i = deliver h oc -> request_span_ (self w) <> None) /\
  (forall (o : HttpCallImpl) (t : Trace) sc rb reason,
     request_span_ o = None ->
     onSuccess env sc rb (mkWorld o t) = None /\
     onFailure env reason (mkWorld o t) = None).
Proof.
  intros HR Hrun Hperm.
  pose proof (reachable_Inv env R HR inputs w Hrun) as HI.
  split; [exact (step_total env R w i HI Hperm)|]. split.
  - intros h oc ->. destruct w as [o t]. cbn [self trace] in *.
    assert (Hex : existsb (Nat.eqb h) (outstanding t) = true).
    { destruct oc; cbn [deliver permitted] in Hperm; [exact Hperm|].
      apply andb_prop in Hperm. destruct Hperm as [Hperm _].
      apply andb_prop in Hperm. tauto. }
    destruct (permitted_in_flight env R o t h HI Hex) as (sp & _ & Hsp & _).
    congruence.
  - intros o t sc rb reason Hsp. split.
    + apply onSuccess_null_span. exact Hsp.
    + apply onFailure_null_span. exact Hsp.
Qed.

Lemma handlers_find_their_span_witness :
  let env := demo_env ["a"] in
  run env [InCall] (create 0) = Some (world_after env 0 [InCall]) /\
  permitted (trace (world_after env 0 [InCall])) (InOnFailure 0%nat Reset)
  = true /\
  exists w' : World,
    step env (world_after env 0 [InCall]) (InOnFailure 0%nat Reset) = Some w'.
Proof.
  cbv zeta. split; [vm_compute; reflexivity|].
  split; [vm_compute; reflexivity|].
  apply (handlers_find_their_span (demo_env ["a"]) 0 [InCall]).
  - lia.
  - vm_compute. reflexivity.
  - vm_compute. reflexivity.
Defined.

(** X11.  The message [prepareHeaders] builds carries each of its six
    headers once; its Content-Length is the decimal length of the body it
    carries, which is the serialized body of the call; two tokens give
    messages that differ in the Authorization header only, and never the
    same message. *)
Theorem request_message_shape (env : Env) (token token' : string) :
  NoDup (map fst (headers (prepareHeaders env token))) /\
  List.length (headers (prepareHeaders env token)) = 6%nat /\
  body (prepareHeaders env token) = str_body_ env /\
  get_header ContentLength (headers (prepareHeaders env token))
  = Some (to_string
            (Z.of_nat (String.length (body (prepareHeaders env token))))) /\
  get_header Authorization (headers (prepareHeaders env token))
  = Some ("Bearer " ++ token)%string /\
  (forall name, name <> Authorization ->
     get_header name (headers (prepareHeaders env token'))
     = get_header name (headers (prepareHeaders env token))) /\
  body (prepareHeaders env token') = body (prepareHeaders env token) /\
  (prepareHeaders env token' = prepareHeaders env token -> token' = token).
Proof.
  repeat split.
  - cbn. repeat constructor; cbn; intuition discriminate.
  - intros name Hname. destruct name; try reflexivity. congruence.
  - intros Heq. unfold prepareHeaders in Heq. cbn [append] in Heq.
    congruence.
Qed.

(** X12.  [CreateLoadAssignment] names the cluster after the host and gives
    it one locality with one endpoint, which resolves to that host and
    port; assignments made for different hosts or ports differ. *)
Theorem load_assignment_single_endpoint (hostname hostname' : string)
    (port port' : Z) :
  let cla := LoadAssignment.CreateLoadAssignment hostname port in
  LoadAssignment.ClusterName cla = hostname /\
  List.length (LoadAssignment.Endpoints cla) = 1%nat /\
  map LoadAssignment.endpoint_socket (LoadAssignment.all_endpoints cla)
  = [Some (LoadAssignment.ClusterName cla, port)] /\
  (LoadAssignment.CreateLoadAssignment hostname' port' = cla ->
   hostname' = hostname /\ port' = port).
Proof.
  cbv zeta. split; [reflexivity|]. split; [reflexivity|].
  split; [reflexivity|].
  intros Heq. unfold LoadAssignment.CreateLoadAssignment in Heq.
  split; congruence.
Qed.

(** X13.  The transport's cancel is never invoked on the retry path, where
    [reset] only drops the pointer to a request that was already answered:
    in every reachable world it was invoked at most once, and not at all
    unless [cancel] was called. *)
Theorem transport_cancel_only_by_cancel (env : Env) (R : Z)
    (inputs : list Input) (w : World) :
  0 <= R < 2 ^ 32 ->
  run env inputs (create R) = Some w ->
  (count is_request_cancel (trace w) <= count is_cancel (trace w))%nat /\
  (count is_cancel (trace w) <= 1)%nat.
Proof.
  intros HR Hrun. split.
  - revert inputs w Hrun.
    apply (reachable_invariant env R
             (fun w => (count is_request_cancel (trace w)
                        <= count is_cancel (trace w))%nat) HR).
    + cbn. lia.
    + intros w0 w' i HI HQ Hstep.
      destruct (step_shape env R w0 w' i HR HI Hstep)
        as [(_ & -> & ->)|[(_ & -> & ->)|[(h & sp & _ & Hfl & ->)
           |(h & sp & oc & k & v & -> & Hfl & Hcase)]]].
      * destruct (empty (token_fn_ env 0)) eqn:He.
        -- rewrite attempt_empty_token by exact He. cbn. lia.
        -- rewrite attempt_sends by exact He. cbn. lia.
      * cbn. lia.
      * tr_more. lia.
      * cbv zeta in Hcase.
        set (t1 := EvFinishSpan sp :: EvSetTag sp k v
                   :: event_of (deliver h oc) :: trace w0) in *.
        assert (H1 : count is_request_cancel t1
                     = count is_request_cancel (trace w0))
          by (subst t1; destruct oc; reflexivity).
        assert (H2 : count is_cancel t1 = count is_cancel (trace w0))
          by (subst t1; destruct oc; reflexivity).
        clearbody t1.
        destruct Hcase as [(st & _ & ->)|(_ & ->)].
        -- tr_more. lia.
        -- destruct (empty (token_fn_ env (count is_token t1))) eqn:He.
           ++ rewrite (attempt_empty_token env _ t1 He). tr_more. lia.
           ++ rewrite (attempt_sends env _ t1 He). tr_more. lia.
  - pose proof (reachable_Inv env R HR inputs w Hrun) as [_ _ Hp].
    destruct Hp as [Ht _|h sp _ _ _ _ _ Hx|st b _ _ _ _ Hx|_ _ _ _ Hx];
      rewrite ?Ht, ?Hx; cbn; lia.
Qed.

Lemma transport_cancel_only_by_cancel_witness :
  let env := demo_env ["a"; "b"] in
  let inputs := [InCall; InOnFailure 0%nat Reset; InCancel] in
  run env inputs (create 1) = Some (world_after env 1 inputs) /\
  (count is_request_cancel (trace (world_after env 1 inputs)) <= 1)%nat.
Proof.
  cbv zeta. split; [vm_compute; reflexivity|].
  destruct (transport_cancel_only_by_cancel (demo_env ["a"; "b"]) 1
              [InCall; InOnFailure 0%nat Reset; InCancel]
              (world_after (demo_env ["a"; "b"]) 1
                 [InCall; InOnFailure 0%nat Reset; InCancel]))
    as [H1 H2].
  - lia.
  - vm_compute. reflexivity.
  - lia.
Defined.
